(** * ChangeLog-Manager: a shallow embedding of [changelog.py]

    The development follows the source file top-down: the Python string
    primitives the program relies on, the clock and its formatting, the
    persisted documents, a state-and-exception monad standing for one
    process working on its files, the two classes [ChangelogConfig] and
    [ChangelogManager], and finally the properties of the specification. *)

From Stdlib Require Import ZArith Ascii String Decimal.
From stdpp Require Import gmap strings list fin_maps sorting.

Local Open Scope Z_scope.
Local Open Scope list_scope.

(** ** Python text

    A Python [str] is a sequence of Unicode code points; it is modelled as
    the list of their numbers.  Literals of the source are all ASCII in the
    parts modelled here and are written [u "..."] . *)

Abbreviation str := (list N).

Definition u (s : string) : str := N_of_ascii <$> list_ascii_of_string s.

(** [str.isspace] on one code point: the table of CPython's
    [_PyUnicode_IsWhitespace]. *)
Definition isspace (c : N) : bool :=
  ((9 <=? c) && (c <=? 13) || (28 <=? c) && (c <=? 32)
   || (c =? 133) || (c =? 160) || (c =? 5760)
   || (8192 <=? c) && (c <=? 8202)
   || (c =? 8232) || (c =? 8233) || (c =? 8239) || (c =? 8287)
   || (c =? 12288))%N.

(** Line boundaries of [str.splitlines]: CPython's [_PyUnicode_IsLinebreak]. *)
Definition islinebreak (c : N) : bool :=
  ((10 <=? c) && (c <=? 13) || (28 <=? c) && (c <=? 30)
   || (c =? 133) || (c =? 8232) || (c =? 8233))%N.

Fixpoint lstrip (s : str) : str :=
  match s with
  | c :: rest => if isspace c then lstrip rest else s
  | [] => []
  end.

Definition rstrip (s : str) : str := reverse (lstrip (reverse s)).

(** [s.strip()] *)
Definition strip (s : str) : str := rstrip (lstrip s).

(** [s.startswith(p)] *)
Fixpoint startswith (s p : str) : bool :=
  match p, s with
  | [], _ => true
  | _ :: _, [] => false
  | a :: p', b :: s' => (a =? b)%N && startswith s' p'
  end.

(** [p in s] for two strings: [p] occurs in [s] as a contiguous run. *)
Fixpoint contains (s p : str) : bool :=
  startswith s p ||
  match s with
  | [] => false
  | _ :: s' => contains s' p
  end.

(** [s.splitlines()]: [cur] is the line being read.  A carriage return
    followed by a line feed is one boundary; a last line without a
    terminator is kept unless it is empty. *)
Fixpoint splitlines_go (cur s : str) : list str :=
  match s with
  | [] => match cur with [] => [] | _ => [cur] end
  | c :: rest =>
      if islinebreak c then
        match rest with
        | c' :: rest' =>
            if ((c =? 13) && (c' =? 10))%N
            then cur :: splitlines_go [] rest'
            else cur :: splitlines_go [] rest
        | [] => [cur]
        end
      else splitlines_go (cur ++ [c]) rest
  end.

Definition splitlines (s : str) : list str := splitlines_go [] s.

(** [sep.join(parts)] *)
Fixpoint join (sep : str) (parts : list str) : str :=
  match parts with
  | [] => []
  | [p] => p
  | p :: rest => p ++ sep ++ join sep rest
  end.

(** [s.split(sep)] for a one-character separator: always at least one
    piece. *)
Fixpoint split_go (sep : N) (cur s : str) : list str :=
  match s with
  | [] => [cur]
  | c :: rest =>
      if (c =? sep)%N then cur :: split_go sep [] rest
      else split_go sep (cur ++ [c]) rest
  end.

Definition split (sep : N) (s : str) : list str := split_go sep [] s.

(** [s.split(sep, 1)] when [sep in s]: the text before the first
    separator and the text after it; [None] when there is no separator. *)
Fixpoint split1_go (sep : N) (cur s : str) : option (str * str) :=
  match s with
  | [] => None
  | c :: rest =>
      if (c =? sep)%N then Some (cur, rest)
      else split1_go sep (cur ++ [c]) rest
  end.

Definition split1 (sep : N) (s : str) : option (str * str) :=
  split1_go sep [] s.

(** Decimal digits of a number, and [%0wd] formatting. *)
Fixpoint uint_digits (d : Decimal.uint) : str :=
  match d with
  | Nil => []
  | D0 d => 48%N :: uint_digits d
  | D1 d => 49%N :: uint_digits d
  | D2 d => 50%N :: uint_digits d
  | D3 d => 51%N :: uint_digits d
  | D4 d => 52%N :: uint_digits d
  | D5 d => 53%N :: uint_digits d
  | D6 d => 54%N :: uint_digits d
  | D7 d => 55%N :: uint_digits d
  | D8 d => 56%N :: uint_digits d
  | D9 d => 57%N :: uint_digits d
  end.

Definition digits (n : N) : str := uint_digits (N.to_uint n).

Definition zpad (width : nat) (n : N) : str :=
  let d := digits n in
  replicate (width - length d)%nat 48%N ++ d.

(** The parts of Python's text handling that rest on the Unicode character
    database, which is not part of the program: case folding and the
    recognition and conversion of digits.  The development is parametric
    in them; [ascii_text] below is the instance that agrees with Python on
    ASCII text and serves the worked examples. *)
Class PythonText := {
  (** [s.lower()] *)
  lower : str → str;
  (** [s.isdigit()] *)
  isdigit : str → bool;
  (** [int(s)]; [None] stands for [ValueError] *)
  int : str → option Z
}.

Definition ascii_lower_char (c : N) : N :=
  if ((65 <=? c) && (c <=? 90))%N then (c + 32)%N else c.

Definition ascii_isdigit_char (c : N) : bool := ((48 <=? c) && (c <=? 57))%N.

Definition ascii_isdigit (s : str) : bool :=
  match s with
  | [] => false
  | _ => forallb ascii_isdigit_char s
  end.

Fixpoint ascii_int_go (acc : Z) (s : str) : option Z :=
  match s with
  | [] => Some acc
  | c :: rest =>
      if ascii_isdigit_char c
      then ascii_int_go (10 * acc + (Z.of_N c - 48)) rest
      else None
  end.

Definition ascii_int (s : str) : option Z :=
  match s with
  | [] => None
  | _ => ascii_int_go 0 s
  end.

Definition ascii_text : PythonText :=
  {| lower := fmap ascii_lower_char;
     isdigit := ascii_isdigit;
     int := ascii_int |}.

(** ** The clock

    [datetime.now()] returns a reading with microsecond resolution. *)

Record DateTime := {
  year : N; month : N; day : N;
  hour : N; minute : N; second : N;
  microsecond : N
}.

(** [dt.strftime("%Y%m%d%H%M%S%f")] *)
Definition strftime_compact (dt : DateTime) : str :=
  zpad 4 (year dt) ++ zpad 2 (month dt) ++ zpad 2 (day dt)
  ++ zpad 2 (hour dt) ++ zpad 2 (minute dt) ++ zpad 2 (second dt)
  ++ zpad 6 (microsecond dt).

(** [dt.strftime('%Y-%m-%d')] *)
Definition strftime_date (dt : DateTime) : str :=
  zpad 4 (year dt) ++ u "-" ++ zpad 2 (month dt) ++ u "-" ++ zpad 2 (day dt).

(** [dt.isoformat()]: the fraction is left out when it is zero. *)
Definition isoformat (dt : DateTime) : str :=
  strftime_date dt ++ u "T"
  ++ zpad 2 (hour dt) ++ u ":" ++ zpad 2 (minute dt) ++ u ":"
  ++ zpad 2 (second dt)
  ++ (if decide (microsecond dt = 0%N) then []
      else u "." ++ zpad 6 (microsecond dt)).

(** [s[:-3]] *)
Definition drop_last3 (s : str) : str := take (length s - 3)%nat s.

(** ** Encoding text

    Files are written as UTF-8 with the strict error handler, which
    encodes the Unicode scalar values and raises [UnicodeEncodeError] on
    a surrogate.  (A number above 0x10FFFF is no code point of a Python
    [str]; it is counted as not encodable.) *)
Definition scalar (c : N) : bool :=
  ((c <? 55296) || (57343 <? c) && (c <=? 1114111))%N.

Definition encodable (s : str) : bool := forallb scalar s.

(** File names go through [os.fsencode]: UTF-8 with the [surrogateescape]
    handler, which also takes the surrogates U+DC80..U+DCFF, each as one
    byte. *)
Definition fs_encodable_char (c : N) : bool :=
  scalar c || ((56448 <=? c) && (c <=? 56575))%N.

Definition fs_encodable (s : str) : bool := forallb fs_encodable_char s.

Definition fs_char_bytes (c : N) : nat :=
  if (c <? 128)%N then 1
  else if (c <? 2048)%N then 2
  else if ((56448 <=? c) && (c <=? 56575))%N then 1
  else if (c <? 65536)%N then 3
  else 4.

(** The length in bytes of a file name. *)
Definition fs_length (s : str) : nat := sum_list (fs_char_bytes <$> s).

(** [NAME_MAX] of the common Linux file systems. *)
Definition NAME_MAX : nat := 255.

(** ** Persisted documents *)

(** A JSON scalar of the configuration file. *)
Inductive Value :=
  | VStr (s : str)
  | VBool (b : bool)
  | VInt (z : Z).

(** The configuration: section name to (key to value). *)
Abbreviation ConfigDict := (gmap str (gmap str Value)).

(** A change entry, as [add] builds it. *)
Record ChangeEntry := {
  id : str;
  description : str;
  timestamp : str;
  author : option str;
  status : str
}.

Abbreviation Changes := (gmap str (list ChangeEntry)).

Record Metadata := { total_changes : Z }.

(** The document of [unreleased.json]. *)
Record PendingDoc := {
  project : Value;
  created : str;
  last_modified : str;
  changes : Changes;
  metadata : Metadata
}.

(** The document of one [release_<version>.json]. *)
Record ReleaseRecord := {
  rel_version : str;
  rel_date : str;
  rel_timestamp : str;
  rel_release_notes : str;
  rel_changes : Changes;
  rel_metadata : Metadata
}.

(** What [json.load] meets at the path of a JSON file. *)
Inductive JsonFile (A : Type) :=
  | Missing
  | Corrupt
  | Valid (doc : A).
Arguments Missing {A}.
Arguments Corrupt {A}.
Arguments Valid {A} doc.

(** [json.dump(..., ensure_ascii=False)] into a UTF-8 file writes every
    string of the document as it is, keys included: it goes through when
    all of them can be encoded. *)
Definition encodable_value (v : Value) : bool :=
  match v with
  | VStr s => encodable s
  | _ => true
  end.

Definition encodable_entry (e : ChangeEntry) : bool :=
  encodable (id e) && encodable (description e) && encodable (timestamp e)
  && match author e with
     | Some a => encodable a
     | None => true
     end
  && encodable (status e).

Definition encodable_changes (c : Changes) : bool :=
  forallb (λ kl, encodable kl.1 && forallb encodable_entry kl.2)
    (map_to_list c).

Definition encodable_doc (d : PendingDoc) : bool :=
  encodable_value (project d) && encodable (created d)
  && encodable (last_modified d) && encodable_changes (changes d).

Definition encodable_release (r : ReleaseRecord) : bool :=
  encodable (rel_version r) && encodable (rel_date r)
  && encodable (rel_timestamp r) && encodable (rel_release_notes r)
  && encodable_changes (rel_changes r).

Definition encodable_config (c : ConfigDict) : bool :=
  forallb
    (λ ks, encodable ks.1
           && forallb (λ kv, encodable kv.1 && encodable_value kv.2)
                (map_to_list ks.2))
    (map_to_list c).

(** ** One process and its files

    The state a command works on: the clock and the readings taken so
    far, the lines waiting on standard input, the configuration held in
    memory and its file, and the three artifacts of the manager at the
    paths it was constructed with.

    The environment is taken to be a POSIX system on which the project
    directories exist and are writable, the disk has room, the files
    hold UTF-8 text, the directory of release records holds files only
    (no subdirectory), and the terminal takes every text printed to it;
    text printed to the terminal is not part of the state.  What can
    still go wrong is what the program's own data decides: a text that
    UTF-8 cannot encode, a release file name that the file system
    refuses, and an argument of the git command that cannot be passed
    to it. *)
Record World := {
  clock : nat → DateTime;
  ticks : nat;
  stdin : list str;
  config : ConfigDict;
  config_file : JsonFile ConfigDict;
  changelog_file : option str;
  unreleased_file : JsonFile PendingDoc;
  releases_dir : gmap str (JsonFile ReleaseRecord);
  git_ok : bool;
  git_tags : list (str * str)
}.

(** [OSError] stands for the class with its subclasses
    ([FileNotFoundError], [NotADirectoryError], a name too long). *)
Inductive Exn :=
  | KeyError (k : str)
  | IndexError
  | ValueError
  | EOFError
  | FileNotFoundError
  | UnicodeEncodeError
  | OSError.

Inductive Result (A : Type) :=
  | Ok (a : A)
  | Raised (e : Exn).
Arguments Ok {A} a.
Arguments Raised {A} e.

(** Computations that read and write the world and may raise; the world
    reached when an exception is raised is kept, as a file written before
    the exception stays written. *)
Definition M (A : Type) : Type := World → Result A * World.

Global Instance M_ret : MRet M := λ A a w, (Ok a, w).

Global Instance M_bind : MBind M := λ A B k m w,
  match m w with
  | (Ok a, w') => k a w'
  | (Raised e, w') => (Raised e, w')
  end.

Definition raise {A} (e : Exn) : M A := λ w, (Raised e, w).

(** [try: m except Exception: h] *)
Definition try_except {A} (m : M A) (h : Exn → M A) : M A := λ w,
  match m w with
  | (Ok a, w') => (Ok a, w')
  | (Raised e, w') => h e w'
  end.

Definition lift {A} (r : Result A) : M A := λ w, (r, w).

(** [datetime.now()] *)
Definition now : M DateTime := λ w,
  (Ok (clock w (ticks w)),
   {| clock := clock w; ticks := S (ticks w); stdin := stdin w;
      config := config w; config_file := config_file w;
      changelog_file := changelog_file w;
      unreleased_file := unreleased_file w;
      releases_dir := releases_dir w;
      git_ok := git_ok w; git_tags := git_tags w |}).

(** [input(prompt)] *)
Definition input : M str := λ w,
  match stdin w with
  | [] => (Raised EOFError, w)
  | line :: rest =>
      (Ok line,
       {| clock := clock w; ticks := ticks w; stdin := rest;
          config := config w; config_file := config_file w;
          changelog_file := changelog_file w;
          unreleased_file := unreleased_file w;
          releases_dir := releases_dir w;
          git_ok := git_ok w; git_tags := git_tags w |})
  end.

Definition get_config : M ConfigDict := λ w, (Ok (config w), w).

Definition set_config (c : ConfigDict) : M unit := λ w,
  (Ok tt,
   {| clock := clock w; ticks := ticks w; stdin := stdin w;
      config := c; config_file := config_file w;
      changelog_file := changelog_file w;
      unreleased_file := unreleased_file w;
      releases_dir := releases_dir w;
      git_ok := git_ok w; git_tags := git_tags w |}).

(** [with open(self.config_file, 'w', encoding='utf-8') as f: json.dump(...)]:
    the file is truncated when it is opened, and the document is written
    piece by piece; when a string cannot be encoded the file is left with
    the beginning of the document, which is not JSON. *)
Definition write_config_file (c : ConfigDict) : M unit := λ w,
  if encodable_config c then
    (Ok tt,
     {| clock := clock w; ticks := ticks w; stdin := stdin w;
        config := config w; config_file := Valid c;
        changelog_file := changelog_file w;
        unreleased_file := unreleased_file w;
        releases_dir := releases_dir w;
        git_ok := git_ok w; git_tags := git_tags w |})
  else
    (Raised UnicodeEncodeError,
     {| clock := clock w; ticks := ticks w; stdin := stdin w;
        config := config w; config_file := Corrupt;
        changelog_file := changelog_file w;
        unreleased_file := unreleased_file w;
        releases_dir := releases_dir w;
        git_ok := git_ok w; git_tags := git_tags w |}).

Definition read_changelog : M (option str) := λ w, (Ok (changelog_file w), w).

(** [self.changelog_file.write_text(text, encoding='utf-8')]: the file is
    truncated, then the text is encoded in one piece; when that fails
    the file is left empty. *)
Definition write_changelog (text : str) : M unit := λ w,
  if encodable text then
    (Ok tt,
     {| clock := clock w; ticks := ticks w; stdin := stdin w;
        config := config w; config_file := config_file w;
        changelog_file := Some text;
        unreleased_file := unreleased_file w;
        releases_dir := releases_dir w;
        git_ok := git_ok w; git_tags := git_tags w |})
  else
    (Raised UnicodeEncodeError,
     {| clock := clock w; ticks := ticks w; stdin := stdin w;
        config := config w; config_file := config_file w;
        changelog_file := Some [];
        unreleased_file := unreleased_file w;
        releases_dir := releases_dir w;
        git_ok := git_ok w; git_tags := git_tags w |}).

Definition read_unreleased : M (JsonFile PendingDoc) := λ w,
  (Ok (unreleased_file w), w).

(** [with open(self.unreleased_file, 'w', encoding='utf-8') as f:
    json.dump(data, f, indent=2, ensure_ascii=False)] *)
Definition write_unreleased (d : PendingDoc) : M unit := λ w,
  if encodable_doc d then
    (Ok tt,
     {| clock := clock w; ticks := ticks w; stdin := stdin w;
        config := config w; config_file := config_file w;
        changelog_file := changelog_file w;
        unreleased_file := Valid d;
        releases_dir := releases_dir w;
        git_ok := git_ok w; git_tags := git_tags w |})
  else
    (Raised UnicodeEncodeError,
     {| clock := clock w; ticks := ticks w; stdin := stdin w;
        config := config w; config_file := config_file w;
        changelog_file := changelog_file w;
        unreleased_file := Corrupt;
        releases_dir := releases_dir w;
        git_ok := git_ok w; git_tags := git_tags w |}).

(** [with open(release_file, 'w', encoding='utf-8') as f: json.dump(...)]
    for the file called [name] in the directory of release records.  The
    name is first encoded for the file system ([UnicodeEncodeError]) and
    checked for a NUL ([ValueError]).  A name with a "/" leads through a
    subdirectory, and there is none; a name longer than [NAME_MAX] bytes
    is refused: [OSError], and nothing is created.  Otherwise the file
    is created empty or truncated, and the record is written as far as
    it can be encoded. *)
Definition write_release (name : str) (r : ReleaseRecord) : M unit := λ w,
  if negb (fs_encodable name) then (Raised UnicodeEncodeError, w)
  else if bool_decide (0%N ∈ name) then (Raised ValueError, w)
  else if bool_decide (47%N ∈ name) || (NAME_MAX <? fs_length name)%nat
  then (Raised OSError, w)
  else if encodable_release r then
    (Ok tt,
     {| clock := clock w; ticks := ticks w; stdin := stdin w;
        config := config w; config_file := config_file w;
        changelog_file := changelog_file w;
        unreleased_file := unreleased_file w;
        releases_dir := <[name := Valid r]> (releases_dir w);
        git_ok := git_ok w; git_tags := git_tags w |})
  else
    (Raised UnicodeEncodeError,
     {| clock := clock w; ticks := ticks w; stdin := stdin w;
        config := config w; config_file := config_file w;
        changelog_file := changelog_file w;
        unreleased_file := unreleased_file w;
        releases_dir := <[name := Corrupt]> (releases_dir w);
        git_ok := git_ok w; git_tags := git_tags w |}).

(** [subprocess.run(['git', 'tag', '-a', version, '-m', message],
    check=True, capture_output=True)] inside the [try] of
    [_create_git_tag]: [Ok false] stands for the two exceptions caught
    there ([CalledProcessError], and [FileNotFoundError] when there is no
    git).  The arguments are first encoded for the system, one after the
    other, as file names are: a surrogate that cannot be encoded raises
    [UnicodeEncodeError] and a NUL raises [ValueError], which the [try]
    does not catch.  Whether the command then succeeds is a fact of the
    environment (the command line is taken to be within the limits of
    the system). *)
Definition run_git_tag (version message : str) : M bool := λ w,
  if negb (fs_encodable version) then (Raised UnicodeEncodeError, w)
  else if bool_decide (0%N ∈ version) then (Raised ValueError, w)
  else if negb (fs_encodable message) then (Raised UnicodeEncodeError, w)
  else if bool_decide (0%N ∈ message) then (Raised ValueError, w)
  else if git_ok w then
    (Ok true,
     {| clock := clock w; ticks := ticks w; stdin := stdin w;
        config := config w; config_file := config_file w;
        changelog_file := changelog_file w;
        unreleased_file := unreleased_file w;
        releases_dir := releases_dir w;
        git_ok := git_ok w;
        git_tags := git_tags w ++ [(version, message)] |})
  else (Ok false, w).

Definition nl : str := [10%N].

(** Truth value of an optional string in a condition: [None] and the
    empty string are false. *)
Definition truthy (s : option str) : bool :=
  match s with
  | Some (_ :: _) => true
  | _ => false
  end.

(** ** class ChangelogConfig *)
Module ChangelogConfig.

(** [save_config()] with no argument: the configuration in memory goes
    to the file. *)
Definition save_config : M unit :=
  c ← get_config; write_config_file c.

Definition update_path (key relative_path : str) : M unit :=
  c ← get_config;
  match c !! u "paths" with
  | None => raise (KeyError (u "paths"))
  | Some paths =>
      if decide (is_Some (paths !! key)) then
        set_config (<[u "paths" := <[key := VStr relative_path]> paths]> c);;
        save_config
      else raise ValueError
  end.

Definition update_setting (key : str) (value : Value) : M unit :=
  c ← get_config;
  match c !! u "settings" with
  | None => raise (KeyError (u "settings"))
  | Some settings =>
      if decide (is_Some (settings !! key)) then
        set_config (<[u "settings" := <[key := value]> settings]> c);;
        save_config
      else raise ValueError
  end.

End ChangelogConfig.

(** ** class ChangelogManager *)
Module ChangelogManager.

(** [self.change_types], in the order of the dictionary literal. *)
Definition change_types : list (str * str) :=
  [ (u "added", u "### Added");
    (u "changed", u "### Changed");
    (u "deprecated", u "### Deprecated");
    (u "removed", u "### Removed");
    (u "fixed", u "### Fixed");
    (u "security", u "### Security") ].

Definition change_type_keys : list str := change_types.*1.

(** [sum(len(changes) for changes in data['changes'].values())] *)
Definition count_changes (c : Changes) : Z :=
  Z.of_nat (map_fold (λ _ l acc, (length l + acc)%nat) 0%nat c).

Definition _save_unreleased_json (data : PendingDoc) : M unit :=
  t ← now;
  write_unreleased
    {| project := project data; created := created data;
       last_modified := isoformat t;
       changes := changes data; metadata := metadata data |}.

Definition empty_changes : Changes :=
  list_to_map ((λ k, (k, [])) <$> change_type_keys).

Definition _init_unreleased_json : M unit :=
  c ← get_config;
  name ← match c !! u "project" with
         | None => raise (KeyError (u "project"))
         | Some p =>
             match p !! u "name" with
             | None => raise (KeyError (u "name"))
             | Some v => mret v
             end
         end;
  t1 ← now;
  t2 ← now;
  _save_unreleased_json
    {| project := name;
       created := isoformat t1;
       last_modified := isoformat t2;
       changes := empty_changes;
       metadata := {| total_changes := 0 |} |}.

(** The recursive call after a decoding error finds the file that
    [_init_unreleased_json] has just written, so it is unfolded once. *)
Definition _load_unreleased_json : M PendingDoc :=
  f ← read_unreleased;
  (match f with
   | Missing => _init_unreleased_json
   | _ => mret tt
   end);;
  f ← read_unreleased;
  match f with
  | Valid d => mret d
  | Corrupt =>
      _init_unreleased_json;;
      f ← read_unreleased;
      match f with
      | Valid d => mret d
      | _ => raise FileNotFoundError
      end
  | Missing => raise FileNotFoundError
  end.

Definition _generate_id : M str :=
  t ← now;
  let timestamp := drop_last3 (strftime_compact t) in
  mret (u "chg_" ++ timestamp).

Definition add (change_type description : str) (author : option str)
  : M bool :=
  if decide (change_type ∈ change_type_keys) then
    data ← _load_unreleased_json;
    i ← _generate_id;
    t ← now;
    let change_entry :=
      {| id := i; description := description;
         timestamp := isoformat t; author := author;
         status := u "pending" |} in
    let changes' :=
      match changes data !! change_type with
      | Some l => <[change_type := l ++ [change_entry]]> (changes data)
      | None => <[change_type := [change_entry]]> (changes data)
      end in
    _save_unreleased_json
      {| project := project data; created := created data;
         last_modified := last_modified data;
         changes := changes';
         metadata := {| total_changes := count_changes changes' |} |};;
    mret true
  else mret false.

(** *** The changelog document *)

Definition marker : str := u "## [Unreleased]".

Definition render_change (change : ChangeEntry) : str :=
  u "- " ++ description change
  ++ match author change with
     | Some (c :: a) => u " (" ++ (c :: a) ++ u ")"
     | _ => []
     end
  ++ nl.

Definition render_section (changes : Changes) (ct : str * str) : str :=
  match changes !! ct.1 with
  | Some (c :: l) => nl ++ ct.2 ++ nl ++ concat (render_change <$> c :: l)
  | _ => []
  end.

Definition render_release_block
    (version release_notes : str) (changes : Changes) (today : str) : str :=
  nl ++ u "## [" ++ version ++ u "] - " ++ today ++ nl
  ++ match release_notes with
     | [] => []
     | _ => nl ++ release_notes ++ nl
     end
  ++ concat (render_section changes <$> change_types).

(** The scan for the end of the Unreleased section:
    [while i < len(lines) and not lines[i].strip().startswith('## ['): i += 1].
    Its result is not used by the insertion. *)
Fixpoint section_end_go (i : nat) (rest : list str) : nat :=
  match rest with
  | [] => i
  | l :: rest' =>
      if startswith (strip l) (u "## [") then i
      else section_end_go (S i) rest'
  end.

Definition section_end (lines : list str) (start : nat) : nat :=
  section_end_go start (drop start lines).

(** One turn of [for line in lines]. *)
Definition insert_step (release_block : str) (lines : list str)
    (st : list str * bool) (line : str) : list str * bool :=
  let '(new_lines, inserted) := st in
  let new_lines := new_lines ++ [line] in
  if bool_decide (strip line = marker) && negb inserted then
    let i := section_end lines (length new_lines - 1) in
    (new_lines ++ [release_block], true)
  else (new_lines, inserted).

(** From [lines = content.splitlines()] to [write_text]. *)
Definition insert_release_block (content release_block : str) : str :=
  let lines := splitlines content in
  let '(new_lines, inserted) :=
    foldl (insert_step release_block lines) ([], false) lines in
  let new_lines :=
    if inserted then new_lines else new_lines ++ [release_block] in
  join nl new_lines.

(** [read_text] opens the file in text mode: a carriage return, alone
    or before a line feed, is read as a line feed. *)
Fixpoint universal_newlines (s : str) : str :=
  match s with
  | [] => []
  | c :: rest =>
      if (c =? 13)%N then
        match rest with
        | c' :: rest' =>
            if (c' =? 10)%N then 10%N :: universal_newlines rest'
            else 10%N :: universal_newlines rest
        | [] => [10%N]
        end
      else c :: universal_newlines rest
  end.

Definition _update_changelog_md
    (version release_notes : str) (changes : Changes) : M unit :=
  f ← read_changelog;
  let content :=
    match f with
    | Some text => universal_newlines text
    | None => u "# Changelog" ++ nl ++ nl ++ u "## [Unreleased]" ++ nl
    end in
  t ← now;
  let today := strftime_date t in
  let release_block :=
    render_release_block version release_notes changes today in
  write_changelog (insert_release_block content release_block).

Definition _create_git_tag (version message : str) : M unit :=
  let tag_message :=
    u "Release " ++ version
    ++ match message with [] => [] | _ => u ": " ++ message end in
  run_git_tag version tag_message;;
  mret tt.

Definition release (version release_notes : str) (tag_git : bool)
  : M bool :=
  let version_display := version in
  let version_clean :=
    if startswith version (u "v") then drop 1 version else version in
  data ← _load_unreleased_json;
  if decide (total_changes (metadata data) = 0) then mret false
  else
    t1 ← now;
    t2 ← now;
    let release_data :=
      {| rel_version := version_display;
         rel_date := strftime_date t1;
         rel_timestamp := isoformat t2;
         rel_release_notes := release_notes;
         rel_changes := changes data;
         rel_metadata :=
           {| total_changes := total_changes (metadata data) |} |} in
    write_release (u "release_" ++ version_clean ++ u ".json") release_data;;
    _update_changelog_md version_display release_notes (changes data);;
    _init_unreleased_json;;
    (if tag_git then _create_git_tag version_display release_notes
     else mret tt);;
    mret true.

(** *** Removal and configuration updates

    These read the terminal and fold case, so they depend on the text
    primitives of the runtime. *)

Global Instance flip_le_dec : RelDecision (flip le) :=
  λ x y, decide (y ≤ x)%nat.

(** An element of [changes_to_remove]. *)
Record Candidate := {
  c_type : str;
  c_index : nat;
  c_change : ChangeEntry
}.

Section WithText.
Context `{PythonText}.

(** The inner [for ct in self.change_types.keys()] of [remove], run
    for the entry at position [i] of category [ctype]; both [break]s
    leave the loop with the current [global_idx]. *)
Fixpoint global_idx_loop (changes : Changes) (ctype : str) (i : nat)
    (index : Z) (cts : list str) (global_idx : Z) (matched : bool)
  : Z * bool :=
  match cts with
  | [] => (global_idx, matched)
  | ct :: cts' =>
      if decide (ct = ctype) then
        if decide (Z.of_nat i = index - 1) then (global_idx, matched)
        else (global_idx, false)
      else
        global_idx_loop changes ctype i index cts'
          (global_idx + Z.of_nat (length (default [] (changes !! ct))))
          matched
  end.

(** The body of [for i, change in enumerate(changes)]: the final value
    of [match]. *)
Definition entry_matches (changes : Changes) (pattern : option str)
    (index : option Z) (ctype : str) (i : nat) (change : ChangeEntry)
  : bool :=
  let matched := true in
  let matched :=
    if truthy pattern
       && negb (contains (lower (description change))
                         (lower (default [] pattern)))
    then false else matched in
  match index with
  | None => matched
  | Some index =>
      let '(global_idx, matched) :=
        global_idx_loop changes ctype i index change_type_keys 1 matched in
      if decide (global_idx ≠ index) then false else matched
  end.

Fixpoint scan_category (changes : Changes) (pattern : option str)
    (index : option Z) (ctype : str) (i : nat) (l : list ChangeEntry)
  : list Candidate :=
  match l with
  | [] => []
  | change :: l' =>
      (if entry_matches changes pattern index ctype i change
       then [ {| c_type := ctype; c_index := i; c_change := change |} ]
       else [])
      ++ scan_category changes pattern index ctype (S i) l'
  end.

(** The list [changes_to_remove] after the search. *)
Definition find_changes_to_remove (changes : Changes)
    (change_type pattern : option str) (index : option Z)
  : list Candidate :=
  concat
    ((λ ctype,
       if truthy change_type && negb (bool_decide (Some ctype = change_type))
       then []
       else scan_category changes pattern index ctype 0
              (default [] (changes !! ctype)))
     <$> change_type_keys).

(** The comprehension that reads the hand-picked numbers. *)
Fixpoint parse_selection (n : nat) (pieces : list str)
  : Result (list nat) :=
  match pieces with
  | [] => Ok []
  | p :: rest =>
      let s := strip p in
      if isdigit s then
        match int s with
        | None => Raised ValueError
        | Some v =>
            if (1 <=? v) && (v <=? Z.of_nat n) then
              match parse_selection n rest with
              | Ok l => Ok (Z.to_nat (v - 1) :: l)
              | Raised e => Raised e
              end
            else parse_selection n rest
        end
      else parse_selection n rest
  end.

(** The confirmation dialogue: [None] where [remove] returns [False],
    otherwise [indices_to_remove]. *)
Definition choose_indices (n : nat) : M (option (list nat)) :=
  if decide (n = 1%nat) then
    confirm ← input;
    if decide (lower confirm = u "y") then mret (Some [0%nat])
    else mret None
  else
    choice ← input;
    let choice := strip choice in
    if decide (choice = u "1") then mret (Some (seq 0 n))
    else if decide (choice = u "2") then
      numbers ← input;
      selected ← lift (parse_selection n (split 44 (strip numbers)));
      match selected with
      | [] => mret None
      | _ => mret (Some selected)
      end
    else mret None.

(** [sorted(indices_to_remove, reverse=True)] *)
Definition sorted_reverse (l : list nat) : list nat :=
  merge_sort (flip le) l.

(** The deletion loop over the sorted indices: [pop] raises
    [IndexError] out of range, and looking up a category that has been
    deleted raises [KeyError]. *)
Fixpoint delete_selected (changes_to_remove : list Candidate)
    (idxs : list nat) (changes : Changes) : Result Changes :=
  match idxs with
  | [] => Ok changes
  | idx :: rest =>
      match changes_to_remove !! idx with
      | None => Raised IndexError
      | Some item =>
          match changes !! c_type item with
          | None => Raised (KeyError (c_type item))
          | Some l =>
              if decide (c_index item < length l)%nat then
                let l' := delete (c_index item) l in
                let changes' := <[c_type item := l']> changes in
                delete_selected changes_to_remove rest
                  (match l' with
                   | [] => delete (c_type item) changes'
                   | _ => changes'
                   end)
              else Raised IndexError
          end
      end
  end.

Definition remove (change_type pattern : option str) (index : option Z)
  : M bool :=
  data ← _load_unreleased_json;
  let changes_to_remove :=
    find_changes_to_remove (changes data) change_type pattern index in
  match changes_to_remove with
  | [] => mret false
  | _ =>
      sel ← choose_indices (length changes_to_remove);
      match sel with
      | None => mret false
      | Some indices_to_remove =>
          changes' ← lift (delete_selected changes_to_remove
                             (sorted_reverse indices_to_remove)
                             (changes data));
          _save_unreleased_json
            {| project := project data; created := created data;
               last_modified := last_modified data;
               changes := changes';
               metadata :=
                 {| total_changes := count_changes changes' |} |};;
          mret true
      end
  end.

(** The conversion of a [settings] value to its type. *)
Definition coerce_setting (value : str) : M Value :=
  if bool_decide (lower value = u "true")
     || bool_decide (lower value = u "false")
  then mret (VBool (bool_decide (lower value = u "true")))
  else if isdigit value then
    match int value with
    | Some z => mret (VInt z)
    | None => raise ValueError
    end
  else mret (VStr value).

Definition config_update (key value : str) : M bool :=
  try_except
    (let '(section, subkey) :=
       match split1 46 key with
       | Some p => p
       | None => (u "project", key)
       end in
     c ← get_config;
     match c !! section with
     | None => mret false
     | Some sec =>
         (if decide (section = u "paths") then
            ChangelogConfig.update_path subkey value
          else if decide (section = u "settings") then
            v ← coerce_setting value;
            ChangelogConfig.update_setting subkey v
          else
            set_config (<[section := <[subkey := VStr value]> sec]> c);;
            ChangelogConfig.save_config);;
         mret true
     end)
    (λ _, mret false).

End WithText.

End ChangelogManager.

(** * Specification-side definitions and sample data *)

(** The file-name form of a version, in the words of the specification:
    a single leading "v" is stripped. *)
Definition strip_leading_v (version : str) : str :=
  match version with
  | 118%N :: rest => rest
  | _ => version
  end.

(** The terminal input of the next command. *)
Definition with_stdin (lines : list str) (w : World) : World :=
  {| clock := clock w; ticks := ticks w; stdin := lines;
     config := config w; config_file := config_file w;
     changelog_file := changelog_file w;
     unreleased_file := unreleased_file w;
     releases_dir := releases_dir w;
     git_ok := git_ok w; git_tags := git_tags w |}.

(** The number of pending entries, in the words of the specification:
    the sum of the lengths of all category lists of the mapping. *)
Definition entries_total (c : Changes) : nat :=
  sum_list ((λ kl, length kl.2) <$> map_to_list c).

(** The count invariant of the pending document. *)
Definition count_invariant (d : PendingDoc) : Prop :=
  total_changes (metadata d) = Z.of_nat (entries_total (changes d)).

(** The invariant as it holds of the file: whenever the file of pending
    changes holds a document, the document satisfies it. *)
Definition stored_invariant (w : World) : Prop :=
  ∀ d, unreleased_file w = Valid d → count_invariant d.

(** The worlds reached from a freshly initialized pending document by
    [add] and [remove] commands, each [remove] with its own terminal
    input. *)
Inductive reachable `{PythonText} : World → Prop :=
  | reach_init w0 w :
      ChangelogManager._init_unreleased_json w0 = (Ok tt, w) →
      reachable w
  | reach_add w change_type description author :
      reachable w →
      reachable (ChangelogManager.add change_type description author w).2
  | reach_remove w change_type pattern index lines :
      reachable w →
      reachable
        (ChangelogManager.remove change_type pattern index
           (with_stdin lines w)).2.

(** [DEFAULT_CONFIG] with the project named after its root directory, as
    [create_default_config] leaves it. *)
Definition default_config (root_name : str) : ConfigDict :=
  {[ u "project" :=
       {[ u "name" := VStr root_name; u "version" := VStr (u "0.0.0");
          u "author" := VStr []; u "license" := VStr (u "MIT") ]};
     u "paths" :=
       {[ u "changelog" := VStr (u "CHANGELOG.md");
          u "unreleased" := VStr (u ".changelog/unreleased.json");
          u "releases" := VStr (u ".changelog/releases") ]};
     u "settings" :=
       {[ u "auto_backup" := VBool true;
          u "date_format" := VStr (u "%Y-%m-%d");
          u "time_format" := VStr (u "%H:%M:%S");
          u "git_integration" := VBool false ]} ]}.

(** A clock that advances by 100 microseconds per reading, starting at
    2024-01-15 10:30:45.123000. *)
Definition sample_clock (k : nat) : DateTime :=
  {| year := 2024; month := 1; day := 15;
     hour := 10; minute := 30; second := 45;
     microsecond := 123000 + 100 * N.of_nat k |}.

Definition sample_entry (d : string) : ChangeEntry :=
  {| id := u "chg_20240115103045000"; description := u d;
     timestamp := u "2024-01-15T10:30:45"; author := None;
     status := u "pending" |}.

Definition sample_doc (c : Changes) : PendingDoc :=
  {| project := VStr (u "demo");
     created := u "2024-01-15T10:30:44";
     last_modified := u "2024-01-15T10:30:44";
     changes := c;
     metadata := {| total_changes := ChangelogManager.count_changes c |} |}.

(** A project directory just after [init], holding the pending document
    [d]. *)
Definition sample_world (d : PendingDoc) (lines : list str) : World :=
  {| clock := sample_clock; ticks := 0; stdin := lines;
     config := default_config (u "demo");
     config_file := Valid (default_config (u "demo"));
     changelog_file :=
       Some (u "# Changelog - demo" ++ nl ++ nl ++ u "## [Unreleased]" ++ nl);
     unreleased_file := Valid d;
     releases_dir := ∅;
     git_ok := false; git_tags := [] |}.

(** added: "A", "B"; fixed: "C". *)
Definition changes_AB_C : Changes :=
  <[u "added" := [sample_entry "A"; sample_entry "B"]]>
    (<[u "fixed" := [sample_entry "C"]]> ChangelogManager.empty_changes).

(** added: "A", "B". *)
Definition changes_AB : Changes :=
  <[u "added" := [sample_entry "A"; sample_entry "B"]]>
    ChangelogManager.empty_changes.

(** The entries of [l] whose position, counted from [j], is not among
    [ps]: what is left of a list once the entries at the positions [ps]
    are removed. *)
Fixpoint keep_unselected {A} (ps : list nat) (j : nat) (l : list A) : list A :=
  match l with
  | [] => []
  | x :: l' =>
      if bool_decide (j ∈ ps) then keep_unselected ps (S j) l'
      else x :: keep_unselected ps (S j) l'
  end.

(** The positions inside category [k] of the candidates numbered [sel]. *)
Definition picked_positions (cands : list ChangelogManager.Candidate)
    (sel : list nat) (k : str) : list nat :=
  omap (λ i, match cands !! i with
             | Some c =>
                 if bool_decide (ChangelogManager.c_type c = k)
                 then Some (ChangelogManager.c_index c) else None
             | None => None
             end) sel.

(** The mapping the specification expects after the candidates numbered
    [sel] are removed: a category without a picked entry is as before;
    otherwise its list loses exactly the picked entries, and its key when
    nothing is left. *)
Definition expected_changes_at (cands : list ChangelogManager.Candidate)
    (sel : list nat) (c : Changes) (k : str) : option (list ChangeEntry) :=
  match c !! k with
  | None => None
  | Some l =>
      match picked_positions cands sel k with
      | [] => Some l
      | ps =>
          match keep_unselected ps 0 l with
          | [] => None
          | r => Some r
          end
      end
  end.

(** Candidates are listed category by category, and inside a category by
    rising position. *)
Definition candidate_before (c c' : ChangelogManager.Candidate) : Prop :=
  ChangelogManager.c_type c = ChangelogManager.c_type c' →
  (ChangelogManager.c_index c < ChangelogManager.c_index c')%nat.

(** The artifacts other than the pending document are the same in two
    worlds. *)
Definition same_artifacts (w w' : World) : Prop :=
  changelog_file w' = changelog_file w
  ∧ releases_dir w' = releases_dir w
  ∧ config w' = config w
  ∧ config_file w' = config_file w
  ∧ git_tags w' = git_tags w.

(** A computation that leaves them alone, whatever it returns or raises. *)
Definition keeps_artifacts {A} (m : M A) : Prop :=
  ∀ w, same_artifacts w (m w).2.

(** The number of entries listed before category [ctype] in the global
    order: the lengths of the categories that precede it in [cts]. *)
Fixpoint offset_in (changes : Changes) (ctype : str) (cts : list str) : nat :=
  match cts with
  | [] => 0
  | ct :: cts' =>
      if decide (ct = ctype) then 0%nat
      else (length (default [] (changes !! ct))
            + offset_in changes ctype cts')%nat
  end.

(** * Properties *)

Import ChangelogManager.

(** ** Running a command on a concrete world *)

(** A run is its result paired with the world it reaches. *)
Lemma run_result {A} (m : M A) (w : World) (a : A) :
  (m w).1 = Ok a → m w = (Ok a, (m w).2).
Proof. destruct (m w) as [r w']. simpl. by intros ->. Qed.

(** A well-formed JSON file holds the document read from it. *)
Lemma valid_doc {A} (f : JsonFile A) (d0 : A) :
  (match f with Valid _ => true | _ => false end) = true →
  f = Valid (match f with Valid d => d | _ => d0 end).
Proof. by destruct f. Qed.

(** ** Global index removal *)

(** C1: with the entries added: "A", "B" and fixed: "C", the candidate
    search of [remove] for index 3 alone finds nothing (the specification
    expects the single entry "C"), although index 1 finds exactly "A".
    An entry is kept only if its position inside its own category
    equals [index - 1] and the entries of the earlier categories also
    number [index - 1]. *)
Theorem remove_index_3_finds_nothing `{PythonText} :
  find_changes_to_remove changes_AB_C None None (Some 3) = []
  ∧ find_changes_to_remove changes_AB_C None None (Some 1)
    = [ {| c_type := u "added"; c_index := 0; c_change := sample_entry "A" |} ].
Proof. split; vm_compute; reflexivity. Qed.

(** ** Entry ids *)

(** The id that [_generate_id] derives from a clock reading. *)
Lemma _generate_id_run w :
  _generate_id w
  = (Ok (u "chg_" ++ drop_last3 (strftime_compact (clock w (ticks w)))),
     (now w).2).
Proof. reflexivity. Qed.

(** C2: two [add] commands run one after the other within the same
    second, at distinct clock readings 300 microseconds apart, store two
    entries with the same id: the id keeps the reading down to the
    millisecond only. *)
Theorem add_twice_same_id :
  ∃ w' d e1 e2,
    (add (u "added") (u "A") None;; add (u "added") (u "B") None)
      (sample_world (sample_doc empty_changes) [])
    = (Ok true, w')
    ∧ unreleased_file w' = Valid d
    ∧ changes d !! u "added" = Some [e1; e2]
    ∧ description e1 = u "A" ∧ description e2 = u "B"
    ∧ timestamp e1 ≠ timestamp e2
    ∧ id e1 = u "chg_20240115103045123"
    ∧ id e2 = u "chg_20240115103045123".
Proof.
  exists ((add (u "added") (u "A") None;; add (u "added") (u "B") None)
            (sample_world (sample_doc empty_changes) [])).2.
  exists (match unreleased_file
                  ((add (u "added") (u "A") None;;
                    add (u "added") (u "B") None)
                     (sample_world (sample_doc empty_changes) [])).2 with
          | Valid d => d
          | _ => sample_doc ∅
          end).
  exists {| id := u "chg_20240115103045123"; description := u "A";
            timestamp := u "2024-01-15T10:30:45.123100"; author := None;
            status := u "pending" |},
         {| id := u "chg_20240115103045123"; description := u "B";
            timestamp := u "2024-01-15T10:30:45.123400"; author := None;
            status := u "pending" |}.
  split; [apply run_result; vm_compute; reflexivity|].
  split; [apply valid_doc; vm_compute; reflexivity|].
  split; [vm_compute; reflexivity|].
  repeat split; try reflexivity.
  vm_compute. discriminate.
Qed.

(** ** Release *)

(** Reading an existing, well-formed pending document touches nothing. *)
Lemma _load_unreleased_json_valid w d :
  unreleased_file w = Valid d →
  _load_unreleased_json w = (Ok d, w).
Proof.
  intros Hf. unfold _load_unreleased_json, read_unreleased, mbind, M_bind, mret, M_ret.
  rewrite Hf. simpl. rewrite Hf. reflexivity.
Qed.

(** C3: a release of a pending document whose [total_changes] is zero
    returns [False] and leaves every artifact as it was: no release
    record is written, the changelog document and the pending document
    are unchanged. *)
Theorem release_rejects_empty w d version release_notes tag_git :
  unreleased_file w = Valid d →
  total_changes (metadata d) = 0 →
  release version release_notes tag_git w = (Ok false, w).
Proof.
  intros Hf Hz. unfold release.
  unfold mbind at 1. unfold M_bind at 1.
  rewrite (_load_unreleased_json_valid w d Hf).
  destruct (decide (total_changes (metadata d) = 0)) as [_|Hn]; [reflexivity|].
  contradiction.
Qed.

Lemma release_rejects_empty_witness :
  release (u "1.0.0") [] false (sample_world (sample_doc empty_changes) [])
  = (Ok false, sample_world (sample_doc empty_changes) []).
Proof.
  apply (release_rejects_empty _ (sample_doc empty_changes));
    vm_compute; reflexivity.
Defined.

(** Reduction of the projections of a world written out as a record. *)
Ltac world_cbn :=
  cbv beta iota;
  cbn [clock ticks stdin config config_file changelog_file unreleased_file
       releases_dir git_ok git_tags].

(** What a release that returns [True] has done, field by field.  The
    six clock readings of the call are numbered from [ticks w]. *)
Lemma release_done w d version release_notes tag_git w' :
  unreleased_file w = Valid d →
  release version release_notes tag_git w = (Ok true, w') →
  ∃ p name,
    total_changes (metadata d) ≠ 0
    ∧ config w !! u "project" = Some p
    ∧ p !! u "name" = Some name
    ∧ releases_dir w'
      = <[u "release_"
          ++ (if startswith version (u "v") then drop 1 version else version)
          ++ u ".json"
          := Valid
               {| rel_version := version;
                  rel_date := strftime_date (clock w (ticks w));
                  rel_timestamp := isoformat (clock w (S (ticks w)));
                  rel_release_notes := release_notes;
                  rel_changes := changes d;
                  rel_metadata :=
                    {| total_changes := total_changes (metadata d) |} |}]>
        (releases_dir w)
    ∧ changelog_file w'
      = Some (insert_release_block
                (match changelog_file w with
                 | Some text => universal_newlines text
                 | None =>
                     u "# Changelog" ++ nl ++ nl ++ u "## [Unreleased]" ++ nl
                 end)
                (render_release_block version release_notes (changes d)
                   (strftime_date (clock w (2 + ticks w)))))
    ∧ unreleased_file w'
      = Valid {| project := name;
                 created := isoformat (clock w (3 + ticks w));
                 last_modified := isoformat (clock w (5 + ticks w));
                 changes := empty_changes;
                 metadata := {| total_changes := 0 |} |}
    ∧ config w' = config w
    ∧ config_file w' = config_file w
    ∧ stdin w' = stdin w
    ∧ git_tags w'
      = if tag_git && git_ok w
        then git_tags w
             ++ [(version,
                  u "Release " ++ version
                  ++ match release_notes with
                     | [] => []
                     | _ => u ": " ++ release_notes
                     end)]
        else git_tags w.
Proof.
  intros Hf. unfold release.
  unfold mbind at 1. unfold M_bind at 1.
  rewrite (_load_unreleased_json_valid w d Hf).
  destruct (decide (total_changes (metadata d) = 0)) as [Hz|Hn]; [done|].
  destruct w as [ck tk inp cfg cfgf clf unf rels gok gtags].
  simpl in Hf. subst unf.
  unfold _update_changelog_md, _init_unreleased_json, _save_unreleased_json,
    _create_git_tag, run_git_tag, write_release, write_changelog,
    write_unreleased, read_changelog, get_config, now, raise, mbind, M_bind,
    mret, M_ret.
  world_cbn.
  destruct (negb (fs_encodable _)); [done|].
  destruct (bool_decide (0%N ∈ _)); [done|].
  destruct (bool_decide (47%N ∈ _) || _); [done|].
  destruct (encodable_release _); [|done].
  world_cbn.
  destruct (encodable (insert_release_block _ _)); [|done].
  world_cbn.
  destruct (cfg !! u "project") as [p|] eqn:Hp; [|done].
  destruct (p !! u "name") as [name|] eqn:Hname; [|done].
  world_cbn.
  destruct (encodable_doc _); [|done].
  world_cbn.
  destruct tag_git; world_cbn.
  - destruct (negb (fs_encodable version)); [done|].
    destruct (bool_decide (0%N ∈ version)); [done|].
    destruct (negb (fs_encodable _)); [done|].
    destruct (bool_decide (0%N ∈ _)); [done|].
    destruct gok; intros [= <-]; exists p, name; repeat split; done.
  - intros [= <-]. exists p, name. repeat split; done.
Qed.

(** ** Changelog insertion *)

Section Insertion.
Variables (release_block : str) (all_lines : list str).

(** Once the block is in, the remaining lines are copied. *)
Lemma insert_loop_inserted lines acc :
  foldl (insert_step release_block all_lines) (acc, true) lines
  = (acc ++ lines, true).
Proof.
  revert acc. induction lines as [|l lines IH]; intros acc; simpl.
  - by rewrite app_nil_r.
  - rewrite andb_false_r, IH. by rewrite <- app_assoc.
Qed.

(** Lines that are not the marker are copied and nothing is inserted. *)
Lemma insert_loop_no_marker lines acc :
  Forall (λ l, strip l ≠ marker) lines →
  foldl (insert_step release_block all_lines) (acc, false) lines
  = (acc ++ lines, false).
Proof.
  intros Hno. revert acc.
  induction Hno as [|l lines Hl _ IH]; intros acc; simpl.
  - by rewrite app_nil_r.
  - rewrite bool_decide_eq_false_2 by exact Hl. simpl.
    rewrite IH. by rewrite <- app_assoc.
Qed.

(** The block goes right after the first line that strips to the
    marker. *)
Lemma insert_loop_marker pre m post acc :
  Forall (λ l, strip l ≠ marker) pre →
  strip m = marker →
  foldl (insert_step release_block all_lines) (acc, false) (pre ++ m :: post)
  = (acc ++ pre ++ m :: release_block :: post, true).
Proof.
  intros Hpre Hm. rewrite foldl_app, insert_loop_no_marker by exact Hpre.
  simpl. rewrite bool_decide_eq_true_2 by exact Hm. simpl.
  rewrite insert_loop_inserted.
  by rewrite <- !app_assoc.
Qed.

End Insertion.

(** Every list of lines either has no marker line or splits at its first
    one. *)
Lemma first_marker_split (lines : list str) :
  Forall (λ l, strip l ≠ marker) lines
  ∨ ∃ pre m post,
      lines = pre ++ m :: post
      ∧ Forall (λ l, strip l ≠ marker) pre ∧ strip m = marker.
Proof.
  induction lines as [|l lines IH].
  - left. constructor.
  - destruct (decide (strip l = marker)) as [Hl|Hl].
    + right. exists [], l, lines. by repeat split.
    + destruct IH as [IH|(pre & m & post & -> & Hpre & Hm)].
      * left. by constructor.
      * right. exists (l :: pre), m, post. repeat split; [|done].
        by constructor.
Qed.

(** The lines written back are the lines read with the block put between
    two of them, or after the last. *)
Lemma insert_release_block_after_first_marker_lines
    (content release_block : str) :
  ∃ pre post,
    splitlines content = pre ++ post
    ∧ insert_release_block content release_block
      = join nl (pre ++ release_block :: post).
Proof.
  unfold insert_release_block.
  destruct (first_marker_split (splitlines content))
    as [Hno|(pre & m & post & Hsplit & Hpre & Hm)].
  - exists (splitlines content), []. rewrite app_nil_r. split; [done|].
    by rewrite insert_loop_no_marker.
  - exists (pre ++ [m]), post. rewrite <- app_assoc. split; [done|].
    rewrite Hsplit at 2. rewrite insert_loop_marker by done.
    by rewrite <- app_assoc.
Qed.

(** C5 (as amended): the release block is inserted immediately after the
    first line that equals the marker "## [Unreleased]" once leading and
    trailing whitespace is stripped; when no line does, the block is
    appended after the last line; every line of the document, the marker
    line included, is kept in its place.  The new text is the lines
    joined by line feeds. *)
Theorem insert_release_block_after_first_marker (content release_block : str) :
  (∀ pre m post,
     splitlines content = pre ++ m :: post →
     Forall (λ l, strip l ≠ marker) pre →
     strip m = marker →
     insert_release_block content release_block
     = join nl (pre ++ m :: release_block :: post))
  ∧ (Forall (λ l, strip l ≠ marker) (splitlines content) →
     insert_release_block content release_block
     = join nl (splitlines content ++ [release_block]))
  ∧ (∃ pre post,
       splitlines content = pre ++ post
       ∧ insert_release_block content release_block
         = join nl (pre ++ release_block :: post)).
Proof.
  split; [|split]; [unfold insert_release_block..|].
  - intros pre m post Hsplit Hpre Hm.
    rewrite Hsplit at 2. by rewrite insert_loop_marker.
  - intros Hno. by rewrite insert_loop_no_marker.
  - apply insert_release_block_after_first_marker_lines.
Qed.

(** C5 (as stated) fails: in the document whose first line is the marker
    indented by one space and whose second line is "old", no line is
    exactly the marker, yet the block is not appended at the end: it goes
    between the two lines. *)
Lemma insert_release_block_indented_marker :
  Forall (λ l, l ≠ marker) (splitlines (u " ## [Unreleased]" ++ nl ++ u "old"))
  ∧ insert_release_block (u " ## [Unreleased]" ++ nl ++ u "old") (u "BLOCK")
    ≠ join nl (splitlines (u " ## [Unreleased]" ++ nl ++ u "old") ++ [u "BLOCK"])
  ∧ insert_release_block (u " ## [Unreleased]" ++ nl ++ u "old") (u "BLOCK")
    = u " ## [Unreleased]" ++ nl ++ u "BLOCK" ++ nl ++ u "old".
Proof.
  split; [|split].
  - vm_compute. repeat constructor; discriminate.
  - vm_compute. discriminate.
  - vm_compute. reflexivity.
Qed.

(** ** Counting *)

(** The counter computed by the program is the number of entries. *)
Lemma count_changes_entries_total (c : Changes) :
  count_changes c = Z.of_nat (entries_total c).
Proof.
  unfold count_changes, entries_total. rewrite map_fold_foldr. f_equal.
  induction (map_to_list c) as [|[k l] kls IH]; simpl; [done|].
  by rewrite IH.
Qed.

(** The fresh pending document has the six categories, all empty. *)
Lemma empty_changes_keys :
  Forall (λ k, empty_changes !! k = Some []) change_type_keys.
Proof. repeat constructor. Qed.

Lemma empty_changes_lookup k l :
  empty_changes !! k = Some l → k ∈ change_type_keys ∧ l = [].
Proof.
  intros Hk. apply elem_of_list_to_map_2 in Hk.
  apply list_elem_of_fmap in Hk as (k' & [= -> ->] & Hin). done.
Qed.

(** ** Release record and reset *)

(** C4: when a release of a pending document goes through (it returns
    [True]), the release record written under the version's file name
    carries the categorized entries exactly as they were pending, with
    the version, the date, the timestamp, the notes and the same
    [total_changes]; afterwards the pending document is the initial one:
    the six categories and no other, each with an empty list,
    [total_changes] zero, and [created] and [last_modified] taken from
    clock readings of this very call. *)
Theorem release_snapshot_and_reset
    w d version release_notes tag_git w' :
  unreleased_file w = Valid d →
  release version release_notes tag_git w = (Ok true, w') →
  ∃ r d',
    releases_dir w'
    !! (u "release_"
        ++ (if startswith version (u "v") then drop 1 version else version)
        ++ u ".json")
    = Some (Valid r)
    ∧ rel_changes r = changes d
    ∧ rel_version r = version
    ∧ rel_date r = strftime_date (clock w (ticks w))
    ∧ rel_timestamp r = isoformat (clock w (S (ticks w)))
    ∧ rel_release_notes r = release_notes
    ∧ total_changes (rel_metadata r) = total_changes (metadata d)
    ∧ unreleased_file w' = Valid d'
    ∧ Forall (λ k, changes d' !! k = Some []) change_type_keys
    ∧ (∀ k l, changes d' !! k = Some l → k ∈ change_type_keys ∧ l = [])
    ∧ total_changes (metadata d') = 0
    ∧ created d' = isoformat (clock w (3 + ticks w))
    ∧ last_modified d' = isoformat (clock w (5 + ticks w)).
Proof.
  intros Hf Hrun.
  destruct (release_done w d version release_notes tag_git w' Hf Hrun)
    as (p & name & _ & _ & _ & Hrel & _ & Hunrel & _).
  eexists _, _.
  split; [rewrite Hrel; apply lookup_insert_eq|].
  do 6 (split; [reflexivity|]).
  split; [exact Hunrel|]. simpl.
  split; [exact empty_changes_keys|].
  split; [exact empty_changes_lookup|]. done.
Qed.

Lemma release_snapshot_and_reset_witness :
  ∃ r d',
    releases_dir
      (release (u "1.2.0") (u "notes") false
         (sample_world (sample_doc changes_AB_C) [])).2
    !! u "release_1.2.0.json"
    = Some (Valid r)
    ∧ rel_changes r = changes_AB_C
    ∧ unreleased_file
        (release (u "1.2.0") (u "notes") false
           (sample_world (sample_doc changes_AB_C) [])).2
      = Valid d'
    ∧ total_changes (metadata d') = 0.
Proof.
  destruct (release_snapshot_and_reset
              (sample_world (sample_doc changes_AB_C) [])
              (sample_doc changes_AB_C) (u "1.2.0") (u "notes") false
              (release (u "1.2.0") (u "notes") false
                 (sample_world (sample_doc changes_AB_C) [])).2)
    as (r & d' & H1 & H2 & _ & _ & _ & _ & _ & H3 & _ & _ & H4 & _).
  - reflexivity.
  - apply run_result. vm_compute. reflexivity.
  - exists r, d'. repeat split; assumption.
Defined.

(** ** Version forms *)

Lemma strip_leading_v_cons c rest :
  strip_leading_v (c :: rest) = if (118 =? c)%N then rest else c :: rest.
Proof.
  destruct (N.eqb_spec 118 c) as [<-|Hc]; [reflexivity|].
  unfold strip_leading_v.
  destruct c as [|q]; [reflexivity|].
  do 7 (try (destruct q as [q|q|]; try reflexivity)).
  congruence.
Qed.

Lemma startswith_nil s : startswith s [] = true.
Proof. by destruct s. Qed.

(** The slice taken by [release] is the version without a single leading
    "v". *)
Lemma version_clean_spec version :
  (if startswith version (u "v") then drop 1 version else version)
  = strip_leading_v version.
Proof.
  destruct version as [|c rest]; [reflexivity|].
  rewrite strip_leading_v_cons.
  change (startswith (c :: rest) (u "v"))
    with ((118 =? c)%N && startswith rest []).
  rewrite startswith_nil, andb_true_r.
  by destruct (118 =? c)%N.
Qed.

(** A piece joined with others occurs verbatim in the joined text. *)
Lemma join_occurs (sep : str) pre piece post :
  ∃ before after, join sep (pre ++ piece :: post) = before ++ piece ++ after.
Proof.
  induction pre as [|a pre (before & after & IH)].
  - exists []. destruct post as [|b post]; simpl.
    + exists []. by rewrite app_nil_r.
    + by eexists.
  - exists (a ++ sep ++ before), after.
    change (join sep ((a :: pre) ++ piece :: post))
      with (join sep (a :: pre ++ piece :: post)).
    destruct pre as [|b pre]; simpl in *; rewrite IH; by rewrite <- !app_assoc.
Qed.

(** C7: a release that goes through (it returns [True]) has written its
    record under the file name built from the version without a single
    leading "v", while the record and the heading line of the new
    changelog section carry the version as it was given. *)
Theorem release_version_forms w d version release_notes tag_git w' :
  unreleased_file w = Valid d →
  release version release_notes tag_git w = (Ok true, w') →
  ∃ r before after,
    releases_dir w' !! (u "release_" ++ strip_leading_v version ++ u ".json")
    = Some (Valid r)
    ∧ rel_version r = version
    ∧ changelog_file w'
      = Some (before
              ++ (nl ++ u "## [" ++ version ++ u "] - "
                  ++ strftime_date (clock w (2 + ticks w)) ++ nl)
              ++ after).
Proof.
  intros Hf Hrun.
  destruct (release_done w d version release_notes tag_git w' Hf Hrun)
    as (p & name & _ & _ & _ & Hrel & Hlog & _).
  rewrite version_clean_spec in Hrel.
  destruct (insert_release_block_after_first_marker_lines
              (match changelog_file w with
               | Some text => universal_newlines text
               | None =>
                   u "# Changelog" ++ nl ++ nl ++ u "## [Unreleased]" ++ nl
               end)
              (render_release_block version release_notes (changes d)
                 (strftime_date (clock w (2 + ticks w)))))
    as (pre & post & _ & Hins).
  destruct (join_occurs nl pre
              (render_release_block version release_notes (changes d)
                 (strftime_date (clock w (2 + ticks w)))) post)
    as (before & after & Hjoin).
  eexists _, before, _.
  split; [rewrite Hrel; apply lookup_insert_eq|].
  split; [reflexivity|].
  rewrite Hlog, Hins, Hjoin. unfold render_release_block.
  f_equal. rewrite <- !app_assoc. reflexivity.
Qed.

Lemma release_version_forms_witness :
  ∃ r before after,
    releases_dir
      (release (u "v2.0.0") [] false
         (sample_world (sample_doc changes_AB_C) [])).2
    !! u "release_2.0.0.json"
    = Some (Valid r)
    ∧ rel_version r = u "v2.0.0"
    ∧ changelog_file
        (release (u "v2.0.0") [] false
           (sample_world (sample_doc changes_AB_C) [])).2
      = Some (before ++ (nl ++ u "## [v2.0.0] - 2024-01-15" ++ nl) ++ after).
Proof.
  apply (release_version_forms
           (sample_world (sample_doc changes_AB_C) [])
           (sample_doc changes_AB_C) (u "v2.0.0") [] false).
  - reflexivity.
  - apply run_result. vm_compute. reflexivity.
Defined.

(** ** Removal *)

Section Removal.
Context `{PythonText}.

Lemma input_unreleased w : unreleased_file (input w).2 = unreleased_file w.
Proof. unfold input. by destruct (stdin w). Qed.

(** The dialogue reads the terminal and nothing else. *)
Lemma choose_indices_unreleased n w :
  unreleased_file (choose_indices n w).2 = unreleased_file w.
Proof.
  unfold choose_indices, mbind, M_bind, mret, M_ret, lift, input.
  repeat (case_decide || case_match || simplify_eq/=); done.
Qed.

(** What [_save_unreleased_json] leaves in the file: the document with
    the time of saving, or the beginning of it when a text of the
    document cannot be encoded. *)
Lemma _save_unreleased_json_run (data : PendingDoc) (w : World) :
  let d' := {| project := project data; created := created data;
               last_modified := isoformat (clock w (ticks w));
               changes := changes data; metadata := metadata data |} in
  (∃ w', _save_unreleased_json data w = (Ok tt, w')
         ∧ unreleased_file w' = Valid d')
  ∨ (∃ w', _save_unreleased_json data w = (Raised UnicodeEncodeError, w')
           ∧ unreleased_file w' = Corrupt).
Proof.
  unfold _save_unreleased_json, now, write_unreleased, mbind, M_bind.
  cbv beta iota zeta.
  destruct (encodable_doc _); [left|right]; eexists; split; reflexivity.
Qed.

(** The ways [remove] can end on a well-formed pending document: without
    touching it, or with the selected entries deleted and the total
    recomputed, the document then being saved, or lost when it cannot be
    encoded. *)
Lemma remove_outcome w d change_type pattern index r w' :
  unreleased_file w = Valid d →
  remove change_type pattern index w = (r, w') →
  (r ≠ Ok true ∧ unreleased_file w' = Valid d)
  ∨ (∃ sel changes' t,
       delete_selected
         (find_changes_to_remove (changes d) change_type pattern index)
         (sorted_reverse sel) (changes d)
       = Ok changes'
       ∧ ((r = Ok true
           ∧ unreleased_file w'
             = Valid {| project := project d; created := created d;
                        last_modified := isoformat t;
                        changes := changes';
                        metadata :=
                          {| total_changes := count_changes changes' |} |})
          ∨ (r = Raised UnicodeEncodeError ∧ unreleased_file w' = Corrupt))).
Proof.
  intros Hf. unfold remove.
  unfold mbind at 1. unfold M_bind at 1.
  rewrite (_load_unreleased_json_valid w d Hf).
  destruct (find_changes_to_remove (changes d) change_type pattern index)
    as [|c cands] eqn:Hcands.
  { intros [= <- <-]. left. by split. }
  rewrite <- Hcands. clear Hcands c cands.
  unfold mbind at 1. unfold M_bind at 1.
  pose proof (choose_indices_unreleased
                (length (find_changes_to_remove (changes d) change_type
                           pattern index)) w) as Hframe.
  destruct (choose_indices _ w) as [[[sel|]|e] w1]; simpl in Hframe;
    rewrite Hf in Hframe.
  - unfold mbind at 1. unfold M_bind at 1. unfold lift.
    destruct (delete_selected _ (sorted_reverse sel) (changes d))
      as [changes'|e] eqn:Hdel.
    + unfold mbind, M_bind.
      destruct (_save_unreleased_json_run
                  {| project := project d; created := created d;
                     last_modified := last_modified d;
                     changes := changes';
                     metadata :=
                       {| total_changes := count_changes changes' |} |} w1)
        as [(w2 & -> & Hw2)|(w2 & -> & Hw2)];
        intros [= <- <-]; right;
        exists sel, changes', (clock w1 (ticks w1));
        (split; [done|]); [left|right]; by split.
    + intros [= <- <-]. left. by split.
  - intros [= <- <-]. left. by split.
  - intros [= <- <-]. left. by split.
Qed.

(** *** The deletion loop *)

(** A list left empty by the loop was empty before it. *)
Lemma delete_selected_no_new_empty
    (cands : list Candidate) (idxs : list nat) (changes changes' : Changes)
    (k : str) :
  delete_selected cands idxs changes = Ok changes' →
  changes' !! k = Some [] → changes !! k = Some [].
Proof.
  revert changes. induction idxs as [|idx idxs IH]; intros changes; simpl.
  { by intros [= ->]. }
  destruct (cands !! idx) as [item|]; [|done].
  destruct (changes !! c_type item) as [l|] eqn:Hl; [|done].
  case_decide; [|done].
  intros Hrun Hk. specialize (IH _ Hrun Hk).
  destruct (decide (k = c_type item)) as [->|Hne].
  - destruct (delete (c_index item) l) eqn:Hd.
    + by rewrite lookup_delete_eq in IH.
    + by rewrite lookup_insert_eq in IH.
  - destruct (delete (c_index item) l).
    + by rewrite lookup_delete_ne, lookup_insert_ne in IH.
    + by rewrite lookup_insert_ne in IH.
Qed.

(** What the loop leaves of a category is a sublist of what it held. *)
Lemma delete_selected_sublist
    (cands : list Candidate) (idxs : list nat) (changes changes' : Changes)
    (k : str) (l' : list ChangeEntry) :
  delete_selected cands idxs changes = Ok changes' →
  changes' !! k = Some l' →
  ∃ l, changes !! k = Some l ∧ sublist l' l.
Proof.
  revert changes. induction idxs as [|idx idxs IH]; intros changes; simpl.
  { intros [= ->] Hk. by exists l'. }
  destruct (cands !! idx) as [item|]; [|done].
  destruct (changes !! c_type item) as [l|] eqn:Hl; [|done].
  case_decide; [|done].
  intros Hrun Hk. destruct (IH _ Hrun Hk) as (l1 & Hl1 & Hsub).
  destruct (decide (k = c_type item)) as [->|Hne].
  - exists l. split; [done|].
    destruct (delete (c_index item) l) eqn:Hd.
    + by rewrite lookup_delete_eq in Hl1.
    + rewrite lookup_insert_eq in Hl1. injection Hl1 as <-.
      etrans; [exact Hsub|]. rewrite <- Hd. apply sublist_delete.
  - exists l1. split; [|done].
    destruct (delete (c_index item) l).
    + by rewrite lookup_delete_ne, lookup_insert_ne in Hl1.
    + by rewrite lookup_insert_ne in Hl1.
Qed.

End Removal.

(** ** The count invariant *)

(** A document whose total was just recomputed satisfies the invariant. *)
Lemma count_invariant_recomputed
    (p : Value) (c m : str) (changes' : Changes) :
  count_invariant
    {| project := p; created := c; last_modified := m; changes := changes';
       metadata := {| total_changes := count_changes changes' |} |}.
Proof. apply count_changes_entries_total. Qed.

(** The initial document has no entry. *)
Lemma entries_total_empty_changes : entries_total empty_changes = 0%nat.
Proof. vm_compute. reflexivity. Qed.

(** Saving a document that satisfies the invariant keeps it in the file,
    also when the document cannot be written out. *)
Lemma _save_unreleased_json_invariant (data : PendingDoc) (w : World) :
  count_invariant data →
  stored_invariant (_save_unreleased_json data w).2.
Proof.
  intros Hinv d.
  destruct (_save_unreleased_json_run data w)
    as [(w' & -> & Hw')|(w' & -> & Hw')]; simpl; rewrite Hw'.
  - intros [= <-]. exact Hinv.
  - discriminate.
Qed.

(** [_init_unreleased_json] step by step: the project name is looked up
    in the configuration, the clock is read twice, and the initial
    document is saved. *)
Lemma _init_unreleased_json_run (w : World) :
  _init_unreleased_json w
  = match config w !! u "project" with
    | None => (Raised (KeyError (u "project")), w)
    | Some p =>
        match p !! u "name" with
        | None => (Raised (KeyError (u "name")), w)
        | Some name =>
            _save_unreleased_json
              {| project := name;
                 created := isoformat (clock w (ticks w));
                 last_modified := isoformat (clock w (S (ticks w)));
                 changes := empty_changes;
                 metadata := {| total_changes := 0 |} |}
              (now (now w).2).2
        end
    end.
Proof.
  unfold _init_unreleased_json, get_config.
  unfold mbind at 1. unfold M_bind at 1. cbv beta iota.
  unfold mbind at 1. unfold M_bind at 1.
  destruct (config w !! u "project") as [p|]; [|reflexivity].
  destruct (p !! u "name") as [name|]; reflexivity.
Qed.

(** It stops at the configuration, or saves a document that satisfies
    the invariant. *)
Lemma _init_unreleased_json_cases (w : World) :
  (∃ k, _init_unreleased_json w = (Raised (KeyError k), w))
  ∨ (∃ data w1,
       count_invariant data
       ∧ _init_unreleased_json w = _save_unreleased_json data w1).
Proof.
  rewrite _init_unreleased_json_run.
  destruct (config w !! u "project") as [p|]; [|left; by eexists].
  destruct (p !! u "name") as [name|]; [|left; by eexists].
  right. eexists _, _. split; [|reflexivity].
  unfold count_invariant. simpl. by rewrite entries_total_empty_changes.
Qed.

Lemma _init_unreleased_json_invariant (w : World) :
  stored_invariant w → stored_invariant (_init_unreleased_json w).2.
Proof.
  intros Hw.
  destruct (_init_unreleased_json_cases w)
    as [(k & ->)|(data & w1 & Hinv & ->)]; [exact Hw|].
  by apply _save_unreleased_json_invariant.
Qed.

(** After an initialization that went through, the file satisfies the
    invariant, whatever it held before. *)
Lemma _init_unreleased_json_fresh (w0 w : World) :
  _init_unreleased_json w0 = (Ok tt, w) → stored_invariant w.
Proof.
  destruct (_init_unreleased_json_cases w0)
    as [(k & ->)|(data & w1 & Hinv & ->)]; [done|].
  intros Hrun.
  pose proof (_save_unreleased_json_invariant data w1 Hinv) as Hsave.
  by rewrite Hrun in Hsave.
Qed.

(** The document handed out by [_load_unreleased_json] satisfies the
    invariant when the file did, and so does the file afterwards. *)
Lemma _load_unreleased_json_invariant (w : World) (r : Result PendingDoc)
    (w' : World) :
  stored_invariant w →
  _load_unreleased_json w = (r, w') →
  stored_invariant w' ∧ ∀ data, r = Ok data → count_invariant data.
Proof.
  intros Hw.
  destruct (unreleased_file w) as [| |d] eqn:Hf.
  - (* no file *)
    unfold _load_unreleased_json.
    unfold mbind at 1. unfold M_bind at 1. unfold read_unreleased at 1.
    cbv beta iota. rewrite Hf.
    unfold mbind at 1. unfold M_bind at 1.
    pose proof (_init_unreleased_json_invariant w Hw) as Hinit.
    destruct (_init_unreleased_json w) as [[[]|e] w1]; simpl in Hinit;
      [|by intros [= <- <-]].
    unfold mbind at 1. unfold M_bind at 1. unfold read_unreleased at 1.
    cbv beta iota.
    destruct (unreleased_file w1) as [| |d1] eqn:Hf1.
    + by intros [= <- <-].
    + unfold mbind at 1. unfold M_bind at 1.
      pose proof (_init_unreleased_json_invariant w1 Hinit) as Hinit2.
      destruct (_init_unreleased_json w1) as [[[]|e] w2]; simpl in Hinit2;
        [|by intros [= <- <-]].
      unfold mbind, M_bind, read_unreleased.
      destruct (unreleased_file w2) as [| |d2] eqn:Hf2;
        intros [= <- <-]; split; try done.
      intros ? [= <-]. by apply Hinit2.
    + intros [= <- <-]. split; [done|]. intros ? [= <-]. by apply Hinit.
  - (* not JSON *)
    unfold _load_unreleased_json.
    unfold mbind at 1. unfold M_bind at 1. unfold read_unreleased at 1.
    cbv beta iota. rewrite Hf.
    unfold mbind at 1. unfold M_bind at 1. unfold mret at 1, M_ret at 1.
    unfold mbind at 1. unfold M_bind at 1. unfold read_unreleased at 1.
    cbv beta iota. rewrite Hf.
    unfold mbind at 1. unfold M_bind at 1.
    pose proof (_init_unreleased_json_invariant w Hw) as Hinit.
    destruct (_init_unreleased_json w) as [[[]|e] w1]; simpl in Hinit;
      [|by intros [= <- <-]].
    unfold mbind, M_bind, read_unreleased.
    destruct (unreleased_file w1) as [| |d1] eqn:Hf1;
      intros [= <- <-]; split; try done.
    intros ? [= <-]. by apply Hinit.
  - rewrite (_load_unreleased_json_valid w d Hf).
    intros [= <- <-]. split; [done|]. intros ? [= <-]. by apply Hw.
Qed.

(** [add] keeps the invariant of the file: it refuses the category and
    touches nothing, or saves the document with the total recomputed
    from its lists. *)
Lemma add_invariant (w : World) (change_type description : str)
    (author : option str) :
  stored_invariant w →
  stored_invariant (add change_type description author w).2.
Proof.
  intros Hw. unfold add.
  case_decide; [|exact Hw].
  unfold mbind at 1. unfold M_bind at 1.
  destruct (_load_unreleased_json w) as [[data|e] w1] eqn:Hload;
    [|by destruct (_load_unreleased_json_invariant w _ w1 Hw Hload)].
  clear Hload.
  unfold mbind at 1. unfold M_bind at 1. rewrite _generate_id_run.
  unfold mbind at 1. unfold M_bind at 1. unfold now at 1.
  unfold mbind at 1. unfold M_bind at 1.
  match goal with
  | |- stored_invariant
         (match _save_unreleased_json ?d ?w with _ => _ end).2 =>
      pose proof (_save_unreleased_json_invariant d w
                    (count_invariant_recomputed _ _ _ _)) as Hsave;
      destruct (_save_unreleased_json d w) as [[[]|e] w2]; exact Hsave
  end.
Qed.

(** So does [remove], whatever is typed at its prompts. *)
Lemma remove_invariant `{PythonText} (w : World)
    (change_type pattern : option str) (index : option Z) :
  stored_invariant w →
  stored_invariant (remove change_type pattern index w).2.
Proof.
  intros Hw. unfold remove.
  unfold mbind at 1. unfold M_bind at 1.
  destruct (_load_unreleased_json w) as [[data|e] w1] eqn:Hload;
    destruct (_load_unreleased_json_invariant w _ w1 Hw Hload) as [Hw1 _];
    [|exact Hw1].
  clear Hload.
  destruct (find_changes_to_remove (changes data) change_type pattern index)
    as [|c cands] eqn:Hcands; [exact Hw1|].
  rewrite <- Hcands. clear Hcands c cands.
  unfold mbind at 1. unfold M_bind at 1.
  pose proof (choose_indices_unreleased
                (length (find_changes_to_remove (changes data) change_type
                           pattern index)) w1) as Hframe.
  assert (stored_invariant
            (choose_indices
               (length (find_changes_to_remove (changes data) change_type
                          pattern index)) w1).2) as Hw2.
  { intros d Hd. apply Hw1. by rewrite <- Hframe. }
  clear Hframe.
  destruct (choose_indices _ w1) as [[[sel|]|e] w2]; simpl in Hw2;
    [|exact Hw2|exact Hw2].
  unfold mbind at 1. unfold M_bind at 1. unfold lift.
  destruct (delete_selected _ (sorted_reverse sel) (changes data))
    as [changes'|e]; [|exact Hw2].
  unfold mbind, M_bind.
  match goal with
  | |- stored_invariant
         (match _save_unreleased_json ?d ?w with _ => _ end).2 =>
      pose proof (_save_unreleased_json_invariant d w
                    (count_invariant_recomputed _ _ _ _)) as Hsave;
      destruct (_save_unreleased_json d w) as [[[]|e] w3]; exact Hsave
  end.
Qed.

(** C6: in every world reached from a freshly initialized pending
    document by any sequence of [add] and [remove] commands, whatever is
    typed at the prompts, the document stored in the file of pending
    changes has a [metadata.total_changes] equal to the sum of the
    lengths of the category lists of its [changes]. *)
Theorem count_invariant_reachable `{PythonText} (w : World) (d : PendingDoc) :
  reachable w →
  unreleased_file w = Valid d →
  total_changes (metadata d) = Z.of_nat (entries_total (changes d)).
Proof.
  intros Hreach. revert d.
  change (stored_invariant w).
  induction Hreach as [w0 w Hinit
                      |w ct desc author _ IH
                      |w ct pat idx lines _ IH].
  - by apply _init_unreleased_json_fresh with w0.
  - by apply add_invariant.
  - apply remove_invariant. exact IH.
Qed.

(** Two [add]s and one [remove] after initialization: one entry is left,
    and the stored total is 1. *)
Lemma count_invariant_reachable_witness :
  ∃ d,
    unreleased_file
      (@remove ascii_text None (Some (u "crash")) None
         (with_stdin [u "y"]
            (add (u "fixed") (u "Fix crash on startup") (Some (u "Ana"))
               (add (u "added") (u "Dark mode") None
                  (_init_unreleased_json
                     (sample_world (sample_doc changes_AB) [])).2).2).2)).2
    = Valid d
    ∧ total_changes (metadata d) = Z.of_nat (entries_total (changes d))
    ∧ entries_total (changes d) = 1%nat.
Proof.
  exists (match
            unreleased_file
              (@remove ascii_text None (Some (u "crash")) None
                 (with_stdin [u "y"]
                    (add (u "fixed") (u "Fix crash on startup")
                       (Some (u "Ana"))
                       (add (u "added") (u "Dark mode") None
                          (_init_unreleased_json
                             (sample_world (sample_doc changes_AB) [])).2).2).2)).2
          with
          | Valid d => d
          | _ => sample_doc ∅
          end).
  split; [apply valid_doc; vm_compute; reflexivity|].
  split; [|vm_compute; reflexivity].
  apply (@count_invariant_reachable ascii_text
           (@remove ascii_text None (Some (u "crash")) None
              (with_stdin [u "y"]
                 (add (u "fixed") (u "Fix crash on startup") (Some (u "Ana"))
                    (add (u "added") (u "Dark mode") None
                       (_init_unreleased_json
                          (sample_world (sample_doc changes_AB) [])).2).2).2)).2).
  - apply (@reach_remove ascii_text).
    apply (@reach_add ascii_text).
    apply (@reach_add ascii_text).
    apply (@reach_init ascii_text (sample_world (sample_doc changes_AB) [])).
    apply run_result. vm_compute. reflexivity.
  - apply valid_doc. vm_compute. reflexivity.
Defined.

(** ** Category pruning *)

(** C9: when [remove] deletes entries (it returns [True]), the pending
    document is saved with [total_changes] recomputed from its lists, and
    no category that held entries is left in the mapping with an empty
    list: its key is dropped.  Every remaining list is a sublist of the
    former one, so a category that held a single entry either still holds
    it or is gone from the key set. *)
Theorem remove_prunes_empty_categories `{PythonText}
    w d change_type pattern index w' :
  unreleased_file w = Valid d →
  remove change_type pattern index w = (Ok true, w') →
  ∃ d',
    unreleased_file w' = Valid d'
    ∧ count_invariant d'
    ∧ (∀ k l, changes d !! k = Some l → l ≠ [] → changes d' !! k ≠ Some [])
    ∧ (∀ k l', changes d' !! k = Some l' →
         ∃ l, changes d !! k = Some l ∧ sublist l' l)
    ∧ (∀ k e, changes d !! k = Some [e] →
         changes d' !! k = Some [e] ∨ k ∉ dom (changes d')).
Proof.
  intros Hf Hrun.
  destruct (remove_outcome w d change_type pattern index (Ok true) w' Hf Hrun)
    as [[Hne _]|(sel & changes' & t & Hdel & [[_ Hnew]|[Hno _]])];
    [done| |discriminate Hno].
  eexists. split; [exact Hnew|]. simpl.
  split; [apply count_invariant_recomputed|].
  assert (∀ k l, changes d !! k = Some l → l ≠ [] → changes' !! k ≠ Some [])
    as Hprune.
  { intros k l Hk Hl Hk'.
    pose proof (delete_selected_no_new_empty _ _ _ _ _ Hdel Hk') as Hk''.
    congruence. }
  split; [exact Hprune|].
  split; [intros k l' Hk'; exact (delete_selected_sublist _ _ _ _ _ _ Hdel Hk')|].
  intros k e Hk.
  destruct (changes' !! k) as [l'|] eqn:Hk'.
  - left.
    destruct (delete_selected_sublist _ _ _ _ _ _ Hdel Hk') as (l & Hl & Hsub).
    rewrite Hk in Hl. injection Hl as <-.
    destruct l' as [|e' l'].
    + exfalso. by apply (Hprune k [e] Hk).
    + apply sublist_length in Hsub as Hlen. destruct l'; simpl in Hlen; [|lia].
      apply sublist_cons_l in Hsub as (k1 & k2 & Heq & _).
      destruct k1 as [|? [|? ?]]; simplify_eq/=; done.
  - right. by apply not_elem_of_dom.
Qed.

(** The only "fixed" entry is removed on confirmation: the key "fixed" is
    gone. *)
Lemma remove_prunes_empty_categories_witness :
  ∃ w' d',
    @remove ascii_text (Some (u "fixed")) None None
      (sample_world (sample_doc changes_AB_C) [u "y"])
    = (Ok true, w')
    ∧ unreleased_file w' = Valid d'
    ∧ changes d' !! u "fixed" = None
    ∧ total_changes (metadata d') = 2.
Proof.
  assert (@remove ascii_text (Some (u "fixed")) None None
            (sample_world (sample_doc changes_AB_C) [u "y"])
          = (Ok true,
             (@remove ascii_text (Some (u "fixed")) None None
                (sample_world (sample_doc changes_AB_C) [u "y"])).2))
    as Hrun by (apply run_result; vm_compute; reflexivity).
  destruct (@remove_prunes_empty_categories ascii_text
              (sample_world (sample_doc changes_AB_C) [u "y"])
              (sample_doc changes_AB_C) (Some (u "fixed")) None None _
              eq_refl Hrun)
    as (d' & Hf & Hinv & _ & _ & _).
  eexists _, d'. split; [exact Hrun|]. split; [exact Hf|].
  assert (match unreleased_file
                  (@remove ascii_text (Some (u "fixed")) None None
                     (sample_world (sample_doc changes_AB_C) [u "y"])).2 with
          | Valid d => d
          | _ => sample_doc ∅
          end = d') as <- by (rewrite Hf; reflexivity).
  split; vm_compute; reflexivity.
Defined.

(** ** Hand-picked removal *)

(** C8: with added: "A", "B" pending, [remove] without filters lists both
    as candidates; choosing "2" and typing the numbers "1,1" selects the
    candidate "A" alone, yet the deletion loop pops position 0 of the
    list twice: "B" is removed as well and the category is dropped. *)
Theorem remove_duplicate_pick_removes_unselected :
  @find_changes_to_remove ascii_text changes_AB None None None
  = [ {| c_type := u "added"; c_index := 0; c_change := sample_entry "A" |};
      {| c_type := u "added"; c_index := 1; c_change := sample_entry "B" |} ]
  ∧ @parse_selection ascii_text 2 (split 44 (u "1,1")) = Ok [0; 0]%nat
  ∧ ∃ w' d',
      @remove ascii_text None None None
        (sample_world (sample_doc changes_AB) [u "2"; u "1,1"])
      = (Ok true, w')
      ∧ unreleased_file w' = Valid d'
      ∧ changes d' !! u "added" = None
      ∧ total_changes (metadata d') = 0.
Proof.
  split; [vm_compute; reflexivity|].
  split; [vm_compute; reflexivity|].
  exists (@remove ascii_text None None None
            (sample_world (sample_doc changes_AB) [u "2"; u "1,1"])).2.
  exists (match unreleased_file
                  (@remove ascii_text None None None
                     (sample_world (sample_doc changes_AB)
                        [u "2"; u "1,1"])).2 with
          | Valid d => d
          | _ => sample_doc ∅
          end).
  split; [apply run_result; vm_compute; reflexivity|].
  split; [apply valid_doc; vm_compute; reflexivity|].
  split; vm_compute; reflexivity.
Qed.

(** ** Configuration updates *)

Lemma split1_go_no_sep sep cur s :
  sep ∉ s → split1_go sep cur s = None.
Proof.
  revert cur. induction s as [|c s IH]; intros cur Hs; [reflexivity|].
  simpl. apply not_elem_of_cons in Hs as [Hc Hs].
  destruct (N.eqb_spec c sep) as [->|_]; [done|]. by apply IH.
Qed.

(** The conversion of a settings value reads nothing but the value. *)
Lemma coerce_setting_world `{PythonText} value w :
  (coerce_setting value w).2 = w.
Proof.
  unfold coerce_setting, mret, M_ret, raise.
  destruct (bool_decide (lower value = u "true")
            || bool_decide (lower value = u "false")); [done|].
  destruct (isdigit value); [|done]. by destruct (int value).
Qed.

(** [update_setting] raises on a key that the section does not have. *)
Lemma update_setting_unknown (key : str) (value : Value) (w : World)
    (settings : gmap str Value) :
  config w !! u "settings" = Some settings → settings !! key = None →
  ChangelogConfig.update_setting key value w = (Raised ValueError, w).
Proof.
  intros Hs Hk.
  unfold ChangelogConfig.update_setting, get_config, mbind, M_bind, raise.
  rewrite Hs, Hk. rewrite decide_False; [done|]. by intros [? ?].
Qed.

(** A key that addresses the "project" section. *)
Lemma split_project_key (key subkey : str) :
  key = u "project." ++ subkey ∨ ((46%N ∉ key) ∧ subkey = key) →
  match split1 46 key with
  | Some q => q
  | None => (u "project", key)
  end = (u "project", subkey).
Proof.
  intros [->|[Hdot ->]]; [reflexivity|].
  unfold split1. by rewrite split1_go_no_sep.
Qed.

(** C10: a key that addresses the "project" section, written
    "project.<subkey>" or without any dot, is accepted whatever the
    subkey: the value is stored as a string under that subkey of the
    section, new or overwritten, and, the configuration being text that
    UTF-8 can encode, it is written to its file at once and the call
    returns [True].  An unknown subkey of "paths" or of "settings" is
    refused instead: the call returns [False] and nothing changes. *)
Theorem config_update_project_unvalidated `{PythonText}
    w p key subkey value :
  key = u "project." ++ subkey ∨ ((46%N ∉ key) ∧ subkey = key) →
  config w !! u "project" = Some p →
  (encodable_config (<[u "project" := <[subkey := VStr value]> p]> (config w))
   = true →
   ∃ w',
     config_update key value w = (Ok true, w')
     ∧ config w' = <[u "project" := <[subkey := VStr value]> p]> (config w)
     ∧ config_file w' = Valid (config w')
     ∧ unreleased_file w' = unreleased_file w
     ∧ changelog_file w' = changelog_file w
     ∧ releases_dir w' = releases_dir w)
  ∧ (∀ paths,
       config w !! u "paths" = Some paths → paths !! subkey = None →
       config_update (u "paths." ++ subkey) value w = (Ok false, w))
  ∧ (∀ settings,
       config w !! u "settings" = Some settings → settings !! subkey = None →
       config_update (u "settings." ++ subkey) value w = (Ok false, w)).
Proof.
  intros Hkey Hp. split; [|split].
  - intros Henc.
    unfold config_update. rewrite (split_project_key key subkey Hkey).
    unfold try_except, get_config, set_config, ChangelogConfig.save_config,
      write_config_file, mbind, M_bind, mret, M_ret.
    simpl. rewrite Hp.
    destruct (decide (u "project" = u "paths")) as [Heq|_]; [discriminate Heq|].
    destruct (decide (u "project" = u "settings")) as [Heq|_];
      [discriminate Heq|].
    simpl. rewrite Henc.
    eexists. split; [reflexivity|]. simpl. done.
  - intros paths Hpaths Hsub.
    unfold config_update.
    change (split1 46 (u "paths." ++ subkey)) with (Some (u "paths", subkey)).
    unfold try_except, get_config, ChangelogConfig.update_path, raise,
      mbind, M_bind, mret, M_ret.
    simpl. rewrite Hpaths.
    destruct (decide (u "paths" = u "paths")) as [_|Hne]; [|done].
    simpl. rewrite Hpaths. simpl.
    case_decide as Hin; [|reflexivity].
    rewrite Hsub in Hin. by destruct Hin.
  - intros settings Hsettings Hsub.
    unfold config_update.
    change (split1 46 (u "settings." ++ subkey))
      with (Some (u "settings", subkey)).
    cbv beta iota. unfold try_except.
    unfold mbind at 1. unfold M_bind at 1. unfold get_config at 1.
    cbv beta iota. rewrite Hsettings.
    rewrite decide_False by discriminate.
    rewrite decide_True by reflexivity.
    unfold mbind, M_bind.
    pose proof (coerce_setting_world value w) as Hw.
    destruct (coerce_setting value w) as [[v|e] w1]; simpl in Hw; subst w1;
      [|reflexivity].
    by rewrite (update_setting_unknown _ _ _ settings).
Qed.

(** "project.homepage" is not a key of the default configuration. *)
Lemma config_update_project_unvalidated_witness :
  ∃ w' p',
    @config_update ascii_text (u "project.homepage") (u "example.org")
      (sample_world (sample_doc changes_AB) [])
    = (Ok true, w')
    ∧ config w' !! u "project" = Some p'
    ∧ p' !! u "homepage" = Some (VStr (u "example.org"))
    ∧ config_file w' = Valid (config w').
Proof.
  destruct (@config_update_project_unvalidated ascii_text
              (sample_world (sample_doc changes_AB) [])
              {[ u "name" := VStr (u "demo"); u "version" := VStr (u "0.0.0");
                 u "author" := VStr []; u "license" := VStr (u "MIT") ]}
              (u "project.homepage") (u "homepage") (u "example.org"))
    as [Hproject _].
  - left. reflexivity.
  - apply lookup_insert_eq.
  - destruct Hproject as (w' & Hrun & Hcfg & Hfile & _).
    { vm_compute. reflexivity. }
    exists w'. eexists. split; [exact Hrun|].
    split; [rewrite Hcfg; apply lookup_insert_eq|].
    split; [apply lookup_insert_eq|exact Hfile].
Defined.

(** ** Removal of distinct picks *)

Lemma keep_unselected_below {A} (ps : list nat) j (l : list A) :
  Forall (λ p, p < j)%nat ps → keep_unselected ps j l = l.
Proof.
  revert j. induction l as [|x l IH]; intros j Hps; [reflexivity|].
  simpl. rewrite bool_decide_eq_false_2.
  - f_equal. apply IH. eapply Forall_impl; [exact Hps|]. simpl. lia.
  - intros Hj. rewrite Forall_forall in Hps. apply Hps in Hj. lia.
Qed.

(** Popping the highest picked position first leaves the lower ones in
    place. *)
Lemma keep_unselected_delete {A} (ps : list nat) off j (l : list A) :
  Forall (λ p, p < off + j)%nat ps →
  keep_unselected ((off + j)%nat :: ps) off l
  = keep_unselected ps off (delete j l).
Proof.
  revert off j. induction l as [|x l IH]; intros off j Hps; [by destruct j|].
  destruct j as [|j]; simpl.
  - rewrite Nat.add_0_r in *.
    rewrite bool_decide_eq_true_2 by apply list_elem_of_here.
    rewrite !keep_unselected_below; [done|done|].
    constructor; [lia|]. eapply Forall_impl; [exact Hps|]. simpl. lia.
  - replace (off + S j)%nat with (S off + j)%nat in * by lia.
    rewrite IH by done.
    destruct (decide (off ∈ ps)) as [Hin|Hin].
    + rewrite !bool_decide_eq_true_2; [done|done|]. by apply list_elem_of_further.
    + rewrite !bool_decide_eq_false_2; [done|done|].
      intros [Heq|Hin']%elem_of_cons; [lia|done].
Qed.

Lemma keep_unselected_ext {A} (ps ps' : list nat) j (l : list A) :
  (∀ p, p ∈ ps ↔ p ∈ ps') →
  keep_unselected ps j l = keep_unselected ps' j l.
Proof.
  intros Hext. revert j. induction l as [|x l IH]; intros j; [reflexivity|].
  simpl. rewrite (bool_decide_ext _ _ (Hext j)), !IH. done.
Qed.

Lemma StronglySorted_lookup {A} (R : relation A) (l : list A) i j x y :
  StronglySorted R l → (i < j)%nat →
  l !! i = Some x → l !! j = Some y → R x y.
Proof.
  intros Hs. revert i j. induction Hs as [|a l _ IH Ha]; intros i j Hij Hi Hj.
  { done. }
  destruct i as [|i], j as [|j]; simpl in *; try lia.
  - injection Hi as <-. rewrite Forall_forall in Ha.
    apply Ha. by eapply list_elem_of_lookup_2.
  - apply (IH i j); [lia|done..].
Qed.

Lemma picked_positions_cons cands i rest k c :
  cands !! i = Some c →
  picked_positions cands (i :: rest) k
  = if bool_decide (c_type c = k)
    then c_index c :: picked_positions cands rest k
    else picked_positions cands rest k.
Proof.
  intros Hc. unfold picked_positions. simpl. rewrite Hc.
  by destruct (bool_decide (c_type c = k)).
Qed.

(** Picked positions of a category, below a candidate of that category
    listed after all of them. *)
Lemma picked_positions_below cands idxs i c :
  StronglySorted candidate_before cands →
  cands !! i = Some c →
  Forall (λ i', i' < i)%nat idxs →
  Forall (λ p, p < c_index c)%nat (picked_positions cands idxs (c_type c)).
Proof.
  intros Hs Hc Hlt. induction Hlt as [|i' idxs Hi' _ IH]; [constructor|].
  unfold picked_positions. simpl.
  destruct (cands !! i') as [c'|] eqn:Hc'; [|exact IH].
  case_bool_decide as Hty; [|exact IH].
  simpl. constructor; [|exact IH].
  by apply (StronglySorted_lookup _ _ _ _ _ _ Hs Hi' Hc' Hc).
Qed.

(** The deletion loop on strictly descending candidate numbers, each
    pointing at an entry of the current mapping, removes exactly the
    entries pointed at. *)
Lemma delete_selected_descending (cands : list Candidate) (idxs : list nat)
    (cur : Changes) :
  StronglySorted candidate_before cands →
  StronglySorted (flip lt) idxs →
  Forall (λ i, ∃ c l, cands !! i = Some c ∧ cur !! c_type c = Some l
                      ∧ (c_index c < length l)%nat) idxs →
  ∃ cur',
    delete_selected cands idxs cur = Ok cur'
    ∧ ∀ k, cur' !! k = expected_changes_at cands idxs cur k.
Proof.
  intros Hcands Hdesc. revert cur.
  induction Hdesc as [|i rest _ IH Hlt]; intros cur Hvalid.
  { exists cur. split; [reflexivity|]. intros k. unfold expected_changes_at.
    by destruct (cur !! k). }
  apply Forall_cons in Hvalid as [(c & l & Hc & Hl & Hin) Hvalid].
  simpl. rewrite Hc, Hl. rewrite decide_True by exact Hin.
  pose proof (picked_positions_below cands rest i c Hcands Hc Hlt) as Hbelow.
  set (l' := delete (c_index c) l).
  set (cur1 := match l' with
               | [] => delete (c_type c) (<[c_type c:=l']> cur)
               | _ => <[c_type c:=l']> cur
               end).
  assert (∀ k, k ≠ c_type c → cur1 !! k = cur !! k) as Hother.
  { intros k Hk. unfold cur1. destruct l'.
    - by rewrite lookup_delete_ne, lookup_insert_ne.
    - by rewrite lookup_insert_ne. }
  assert (cur1 !! c_type c = match l' with [] => None | _ => Some l' end)
    as Hsame.
  { unfold cur1. destruct l'.
    - by rewrite lookup_delete_eq.
    - by rewrite lookup_insert_eq. }
  assert (length l' = length l - 1)%nat as Hlen.
  { apply length_delete. by apply lookup_lt_is_Some_2. }
  destruct (IH cur1) as (cur' & Hrun & Hspec).
  { rewrite Forall_forall in Hvalid, Hlt. apply Forall_forall.
    intros i' Hi'. destruct (Hvalid i' Hi') as (c' & l1 & Hc' & Hl1 & Hin').
    exists c'. destruct (decide (c_type c' = c_type c)) as [Hty|Hty].
    - exists l'. rewrite Hty, Hsame. rewrite Hty, Hl in Hl1.
      injection Hl1 as <-.
      assert (c_index c' < c_index c)%nat as Hidx.
      { apply (StronglySorted_lookup _ _ _ _ _ _ Hcands (Hlt i' Hi') Hc' Hc).
        exact Hty. }
      split; [done|]. split; [|lia].
      destruct l'; [simpl in Hlen; lia|done].
    - exists l1. by rewrite Hother. }
  exists cur'. split; [exact Hrun|].
  intros k. rewrite Hspec. unfold expected_changes_at.
  rewrite (picked_positions_cons _ _ _ _ _ Hc).
  case_bool_decide as Hk.
  - subst k. rewrite Hsame, Hl.
    pose proof (keep_unselected_delete
                  (picked_positions cands rest (c_type c)) 0 (c_index c) l
                  Hbelow) as Hkeep.
    simpl in Hkeep. rewrite Hkeep. fold l'.
    destruct l' as [|x l2] eqn:Heq; [done|].
    destruct (picked_positions cands rest (c_type c)) as [|p ps]; [|done].
    by rewrite keep_unselected_below.
  - rewrite Hother by done. done.
Qed.

Lemma elem_of_concat {A} (x : A) (ls : list (list A)) :
  x ∈ concat ls ↔ ∃ l, x ∈ l ∧ l ∈ ls.
Proof.
  induction ls as [|l0 ls IH]; simpl.
  - split; [by intros ?%elem_of_nil|by intros (l & _ & ?%elem_of_nil)].
  - rewrite elem_of_app, IH. split.
    + intros [Hx|(l & Hx & Hl)].
      * exists l0. split; [done|apply list_elem_of_here].
      * exists l. split; [done|by apply list_elem_of_further].
    + intros (l & Hx & [->|Hl]%elem_of_cons); [by left|].
      right. by exists l.
Qed.

Section Candidates.
Context `{PythonText}.
Variables (changes : Changes) (change_type pattern : option str)
  (index : option Z).

(** A candidate found in a category points at its entry. *)
Lemma scan_category_elem ctype i l c :
  c ∈ scan_category changes pattern index ctype i l →
  c_type c = ctype ∧ (i ≤ c_index c)%nat
  ∧ l !! (c_index c - i)%nat = Some (c_change c).
Proof.
  revert i. induction l as [|change l IH]; intros i; simpl.
  { by intros ?%elem_of_nil. }
  intros [Hc|Hc]%elem_of_app.
  - destruct (entry_matches _ _ _ _ _ _); [|by apply elem_of_nil in Hc].
    apply list_elem_of_singleton in Hc as ->. simpl.
    by rewrite Nat.sub_diag.
  - destruct (IH _ Hc) as (Hty & Hle & Hl). split; [done|]. split; [lia|].
    by replace (c_index c - i)%nat with (S (c_index c - S i)) by lia.
Qed.

Lemma scan_category_sorted ctype i l :
  StronglySorted candidate_before (scan_category changes pattern index ctype i l).
Proof.
  revert i. induction l as [|change l IH]; intros i; simpl; [constructor|].
  apply StronglySorted_app_2; [|destruct (entry_matches _ _ _ _ _ _)|apply IH].
  - intros c c' Hc Hc' _.
    destruct (entry_matches _ _ _ _ _ _); [|by apply elem_of_nil in Hc].
    apply list_elem_of_singleton in Hc as ->. simpl.
    apply scan_category_elem in Hc' as (_ & Hle & _). lia.
  - repeat constructor.
  - constructor.
Qed.

Lemma find_changes_to_remove_elem c :
  c ∈ find_changes_to_remove changes change_type pattern index →
  c_type c ∈ change_type_keys
  ∧ ∃ l, changes !! c_type c = Some l ∧ l !! c_index c = Some (c_change c).
Proof.
  unfold find_changes_to_remove.
  intros (block & Hc & (ctype & -> & Hkey)%list_elem_of_fmap)%elem_of_concat.
  destruct (truthy change_type && _); [by apply elem_of_nil in Hc|].
  apply scan_category_elem in Hc as (<- & _ & Hl).
  split; [done|].
  rewrite Nat.sub_0_r in Hl.
  destruct (changes !! c_type c) as [l|]; [by exists l|done].
Qed.

Lemma blocks_sorted (keys : list str) :
  NoDup keys →
  StronglySorted candidate_before
    (concat
       ((λ ctype,
          if truthy change_type && negb (bool_decide (Some ctype = change_type))
          then []
          else scan_category changes pattern index ctype 0
                 (default [] (changes !! ctype)))
        <$> keys)).
Proof.
  induction 1 as [|k keys Hk _ IH]; simpl; [constructor|].
  apply StronglySorted_app_2; [| |exact IH].
  - intros c c' Hc Hc' Hty. exfalso. apply Hk.
    assert (c_type c = k) as <-.
    { destruct (truthy change_type && _); [by apply elem_of_nil in Hc|].
      by apply scan_category_elem in Hc as (? & _). }
    apply elem_of_concat in Hc'
      as (block & Hc' & (k' & -> & Hk')%list_elem_of_fmap).
    destruct (truthy change_type
              && negb (bool_decide (Some k' = change_type)));
      [by apply elem_of_nil in Hc'|].
    apply scan_category_elem in Hc' as (<- & _). by rewrite Hty.
  - destruct (truthy change_type && _); [constructor|].
    apply scan_category_sorted.
Qed.

Lemma find_changes_to_remove_sorted :
  StronglySorted candidate_before
    (find_changes_to_remove changes change_type pattern index).
Proof.
  apply blocks_sorted. apply (bool_decide_unpack _). vm_compute. exact I.
Qed.

End Candidates.

(** [sorted(..., reverse=True)] of distinct numbers is strictly
    descending. *)
Lemma sorted_reverse_descending sel :
  NoDup sel → StronglySorted (flip lt) (sorted_reverse sel).
Proof.
  intros Hnd. unfold sorted_reverse.
  assert (NoDup (merge_sort (flip le) sel)) as Hnd'.
  { by rewrite merge_sort_Permutation. }
  assert (StronglySorted (flip le) (merge_sort (flip le) sel)) as Hs.
  { apply StronglySorted_merge_sort.
    - intros x y z. unfold flip. lia.
    - intros x y. unfold flip. lia. }
  induction Hs as [|a l _ IH Ha]; [constructor|].
  apply NoDup_cons in Hnd' as [Hnotin Hnd'].
  constructor; [by apply IH|].
  rewrite Forall_forall in Ha. apply Forall_forall. intros x Hx.
  specialize (Ha x Hx). unfold flip in *.
  assert (x ≠ a) by (intros ->; done). lia.
Qed.

Lemma expected_changes_at_perm (cands : list Candidate) (sel sel' : list nat)
    (c : Changes) (k : str) :
  sel ≡ₚ sel' →
  expected_changes_at cands sel c k = expected_changes_at cands sel' c k.
Proof.
  intros Hperm. unfold expected_changes_at.
  destruct (c !! k) as [l|]; [|done].
  assert (picked_positions cands sel k ≡ₚ picked_positions cands sel' k)
    as Hps by (unfold picked_positions; by rewrite Hperm).
  destruct (picked_positions cands sel k) as [|p ps] eqn:Hp,
           (picked_positions cands sel' k) as [|p' ps'] eqn:Hp'.
  - done.
  - by apply Permutation_nil_cons in Hps.
  - symmetry in Hps. by apply Permutation_nil_cons in Hps.
  - rewrite (keep_unselected_ext (p :: ps) (p' :: ps')); [done|].
    intros q. by rewrite Hps.
Qed.

(** The numbers read at the prompt point into the candidate list. *)
Lemma parse_selection_range `{PythonText} n pieces l :
  parse_selection n pieces = Ok l → Forall (λ i, i < n)%nat l.
Proof.
  revert l. induction pieces as [|p pieces IH]; intros l; simpl.
  { intros [= <-]. constructor. }
  destruct (isdigit (strip p)); [|apply IH].
  destruct (int (strip p)) as [v|]; [|done].
  destruct ((1 <=? v) && (v <=? Z.of_nat n)) eqn:Hv; [|apply IH].
  destruct (parse_selection n pieces) as [l0|]; [|done].
  intros [= <-]. constructor; [|by apply IH].
  apply andb_prop in Hv as [?%Z.leb_le ?%Z.leb_le]. lia.
Qed.

Lemma choose_indices_range `{PythonText} n w sel w1 :
  choose_indices n w = (Ok (Some sel), w1) →
  Forall (λ i, i < n)%nat sel.
Proof.
  unfold choose_indices, mbind, M_bind, mret, M_ret, lift, input.
  case_decide as Hn.
  - subst n. destruct (stdin w); [done|]. case_decide; [|done].
    intros [= <- <-]. repeat constructor.
  - destruct (stdin w) as [|choice rest]; [done|]. simpl.
    case_decide.
    { intros [= <- <-]. apply Forall_forall. intros i Hi.
      apply elem_of_seq in Hi. lia. }
    case_decide; [|done].
    destruct rest as [|numbers rest]; [done|]. simpl.
    destruct (parse_selection n (split 44 (strip numbers))) as [l|] eqn:Hl;
      [|done].
    destruct l as [|i l]; [done|].
    intros [= <- <-]. by apply parse_selection_range in Hl.
Qed.

(** When the picked candidate numbers are pairwise distinct, the deletion
    loop run on them in descending order removes exactly the picked
    entries: every category keeps its other entries in their order, and
    loses its key when all of its entries were picked. *)
Lemma delete_selected_distinct `{PythonText}
    (c : Changes) (change_type pattern : option str) (index : option Z)
    (sel : list nat) :
  NoDup sel →
  Forall (λ i, i < length (find_changes_to_remove c change_type pattern index))%nat
    sel →
  ∃ c',
    delete_selected (find_changes_to_remove c change_type pattern index)
      (sorted_reverse sel) c
    = Ok c'
    ∧ ∀ k, c' !! k
           = expected_changes_at
               (find_changes_to_remove c change_type pattern index) sel c k.
Proof.
  intros Hnd Hrange.
  destruct (delete_selected_descending
              (find_changes_to_remove c change_type pattern index)
              (sorted_reverse sel) c) as (c' & Hrun & Hspec).
  - apply find_changes_to_remove_sorted.
  - by apply sorted_reverse_descending.
  - unfold sorted_reverse. rewrite merge_sort_Permutation.
    eapply Forall_impl; [exact Hrange|]. simpl. intros i Hi.
    apply lookup_lt_is_Some_2 in Hi as [cand Hcand].
    destruct (find_changes_to_remove_elem c change_type pattern index cand)
      as (_ & l & Hl & Hentry).
    { by eapply list_elem_of_lookup_2. }
    exists cand, l. split; [done|]. split; [done|].
    by eapply lookup_lt_Some.
  - exists c'. split; [exact Hrun|]. intros k. rewrite Hspec.
    apply expected_changes_at_perm. unfold sorted_reverse.
    apply merge_sort_Permutation.
Qed.

(** X3: With pairwise distinct picks (the whole candidate list of choice "1",
    or hand-picked numbers without a repetition), a [remove] that goes
    through (it returns [True]) has saved the pending document with
    exactly the picked entries removed; the loop itself cannot fail on
    such picks, so the only other way [remove] can end is on a text of
    the document that cannot be encoded. *)
Theorem remove_distinct_picks `{PythonText}
    w d change_type pattern index sel w1 :
  unreleased_file w = Valid d →
  find_changes_to_remove (changes d) change_type pattern index ≠ [] →
  choose_indices
    (length (find_changes_to_remove (changes d) change_type pattern index)) w
  = (Ok (Some sel), w1) →
  NoDup sel →
  ∃ w',
    (remove change_type pattern index w = (Ok true, w')
     ∧ ∃ d',
         unreleased_file w' = Valid d'
         ∧ count_invariant d'
         ∧ ∀ k, changes d' !! k
                = expected_changes_at
                    (find_changes_to_remove (changes d) change_type pattern
                       index)
                    sel (changes d) k)
    ∨ (remove change_type pattern index w = (Raised UnicodeEncodeError, w')
       ∧ unreleased_file w' = Corrupt).
Proof.
  intros Hf Hcands Hchoose Hnd.
  destruct (delete_selected_distinct (changes d) change_type pattern index sel
              Hnd (choose_indices_range _ _ _ _ Hchoose))
    as (c' & Hrun & Hspec).
  assert (remove change_type pattern index w
          = (_save_unreleased_json
               {| project := project d; created := created d;
                  last_modified := last_modified d;
                  changes := c';
                  metadata := {| total_changes := count_changes c' |} |};;
             mret true) w1) as ->.
  { unfold remove.
    unfold mbind at 1. unfold M_bind at 1.
    rewrite (_load_unreleased_json_valid w d Hf).
    destruct (find_changes_to_remove (changes d) change_type pattern index)
      as [|cand cands] eqn:Heq; [done|].
    rewrite <- Heq in *. clear Heq cand cands.
    unfold mbind at 1. unfold M_bind at 1. rewrite Hchoose.
    unfold mbind at 1. unfold M_bind at 1. unfold lift. rewrite Hrun.
    reflexivity. }
  unfold mbind, M_bind.
  destruct (_save_unreleased_json_run
              {| project := project d; created := created d;
                 last_modified := last_modified d;
                 changes := c';
                 metadata := {| total_changes := count_changes c' |} |} w1)
    as [(w2 & -> & Hw2)|(w2 & -> & Hw2)]; exists w2; [left|right].
  - split; [reflexivity|]. eexists. split; [exact Hw2|].
    split; [apply count_invariant_recomputed|]. exact Hspec.
  - by split.
Qed.

(** Candidates "A", "B", "C"; the numbers "1,3" remove "A" and "C": "B"
    stays and the key "fixed" is dropped. *)
Lemma remove_distinct_picks_witness :
  ∃ d',
    unreleased_file
      (@remove ascii_text None None None
         (sample_world (sample_doc changes_AB_C) [u "2"; u "1,3"])).2
    = Valid d'
    ∧ changes d' !! u "added" = Some [sample_entry "B"]
    ∧ changes d' !! u "fixed" = None.
Proof.
  destruct (@remove_distinct_picks ascii_text
              (sample_world (sample_doc changes_AB_C) [u "2"; u "1,3"])
              (sample_doc changes_AB_C) None None None [0; 2]%nat
              (@choose_indices ascii_text
                 (length (@find_changes_to_remove ascii_text
                            changes_AB_C None None None))
                 (sample_world (sample_doc changes_AB_C)
                    [u "2"; u "1,3"])).2)
    as (w' & [(Hrun & d' & Hf & _ & Hspec)|(Hrun & _)]).
  - reflexivity.
  - vm_compute. discriminate.
  - apply run_result. vm_compute. reflexivity.
  - apply (bool_decide_unpack _). vm_compute. exact I.
  - exists d'. rewrite Hrun. split; [exact Hf|].
    rewrite !Hspec. split; vm_compute; reflexivity.
  - exfalso.
    assert ((@remove ascii_text None None None
               (sample_world (sample_doc changes_AB_C) [u "2"; u "1,3"])).1
            = Ok true) as Hok by (vm_compute; reflexivity).
    rewrite Hrun in Hok. discriminate Hok.
Defined.

(** * Further properties of the code *)

(** ** The candidates of a removal *)

Section CandidateSearch.
Context `{PythonText}.
Variables (changes : Changes) (change_type pattern : option str)
  (index : option Z).

Lemma scan_category_mem ctype i l c :
  c ∈ scan_category changes pattern index ctype i l ↔
  c_type c = ctype ∧ (i ≤ c_index c)%nat
  ∧ l !! (c_index c - i)%nat = Some (c_change c)
  ∧ entry_matches changes pattern index ctype (c_index c) (c_change c) = true.
Proof.
  revert i. induction l as [|change l IH]; intros i; simpl.
  { split; [by intros ?%elem_of_nil|]. by intros (_ & _ & ? & _). }
  rewrite elem_of_app, IH. split.
  - intros [Hc|(Hty & Hle & Hl & Hm)].
    + destruct (entry_matches changes pattern index ctype i change) eqn:Hm;
        [|by apply elem_of_nil in Hc].
      apply list_elem_of_singleton in Hc as ->. simpl.
      by rewrite Nat.sub_diag.
    + split; [done|]. split; [lia|]. split; [|done].
      by replace (c_index c - i)%nat with (S (c_index c - S i)) by lia.
  - intros (Hty & Hle & Hl & Hm).
    destruct (decide (c_index c = i)) as [Hi|Hi].
    + left. rewrite Hi, Nat.sub_diag in *. simpl in Hl. injection Hl as ->.
      rewrite Hm. destruct c; simpl in *; subst. apply list_elem_of_here.
    + right. split; [done|]. split; [lia|]. split; [|done].
      by replace (c_index c - i)%nat with (S (c_index c - S i)) in Hl by lia.
Qed.

(** Membership in the candidate list, for any combination of filters. *)
Lemma find_changes_to_remove_mem c :
  c ∈ find_changes_to_remove changes change_type pattern index ↔
  c_type c ∈ change_type_keys
  ∧ match change_type with
    | Some (ch :: t) => c_type c = ch :: t
    | _ => True
    end
  ∧ (∃ l, changes !! c_type c = Some l ∧ l !! c_index c = Some (c_change c))
  ∧ entry_matches changes pattern index (c_type c) (c_index c) (c_change c)
    = true.
Proof.
  unfold find_changes_to_remove. rewrite elem_of_concat. split.
  - intros (block & Hc & (ctype & -> & Hkey)%list_elem_of_fmap).
    destruct (truthy change_type && _) eqn:Hskip;
      [by apply elem_of_nil in Hc|].
    apply scan_category_mem in Hc as (<- & _ & Hl & Hm).
    rewrite Nat.sub_0_r in Hl.
    split; [done|]. split.
    { destruct change_type as [[|ch t]|]; try done. simpl in Hskip.
      apply negb_false_iff, bool_decide_eq_true in Hskip. congruence. }
    split; [|done].
    destruct (changes !! c_type c) as [l|]; [by exists l|done].
  - intros (Hkey & Hty & (l & Hl & Hentry) & Hm).
    eexists. split; [|apply list_elem_of_fmap; by exists (c_type c)].
    simpl.
    assert (truthy change_type
            && negb (bool_decide (Some (c_type c) = change_type)) = false)
      as ->.
    { destruct change_type as [[|ch t]|]; try done. simpl.
      apply negb_false_iff, bool_decide_eq_true. by rewrite Hty. }
    apply scan_category_mem. rewrite Hl, Nat.sub_0_r. simpl.
    split; [done|]. split; [lia|]. by split.
Qed.

End CandidateSearch.

(** X1: Without an index, the candidates are exactly the entries of the six
    categories that pass the two filters: the category, when one is
    given and not empty, and the pattern, when one is given and not
    empty, as a case-folded substring of the description. *)
Theorem candidates_without_index `{PythonText}
    (changes : Changes) (change_type pattern : option str) (c : Candidate) :
  c ∈ find_changes_to_remove changes change_type pattern None ↔
  c_type c ∈ change_type_keys
  ∧ (∃ l, changes !! c_type c = Some l ∧ l !! c_index c = Some (c_change c))
  ∧ match change_type with
    | Some (ch :: t) => c_type c = ch :: t
    | _ => True
    end
  ∧ match pattern with
    | Some (ch :: p) =>
        contains (lower (description (c_change c))) (lower (ch :: p)) = true
    | _ => True
    end.
Proof.
  rewrite find_changes_to_remove_mem. unfold entry_matches.
  destruct pattern as [[|ch p]|]; simpl; [tauto| |tauto].
  destruct (contains _ _); simpl; tauto.
Qed.

(** ** Removal by index *)

(** The list of any one category is counted in the number of entries. *)
Lemma entries_total_lookup (c : Changes) (k : str) (l : list ChangeEntry) :
  c !! k = Some l → (length l ≤ entries_total c)%nat.
Proof.
  intros Hk. apply elem_of_map_to_list in Hk. unfold entries_total.
  induction (map_to_list c) as [|[k' l'] kls IH]; simpl.
  { by apply elem_of_nil in Hk. }
  apply elem_of_cons in Hk as [[= -> ->]|Hk]; [apply Nat.le_add_r|].
  etrans; [exact (IH Hk)|]. apply Nat.le_add_l.
Qed.

Section IndexSearch.
Context `{PythonText}.
Variables (changes : Changes).

(** The inner loop leaves with the number of entries that precede the
    category, plus its starting value. *)
Lemma global_idx_loop_offset ctype i index cts g m :
  ctype ∈ cts →
  global_idx_loop changes ctype i index cts g m
  = (g + Z.of_nat (offset_in changes ctype cts),
     if decide (Z.of_nat i = index - 1) then m else false).
Proof.
  revert g. induction cts as [|ct cts IH]; intros g Hin; simpl.
  { by apply elem_of_nil in Hin. }
  destruct (decide (ct = ctype)) as [->|Hne].
  - rewrite Z.add_0_r. by destruct (decide (Z.of_nat i = index - 1)).
  - apply elem_of_cons in Hin as [->|Hin]; [done|].
    rewrite IH by done. f_equal. lia.
Qed.

(** An entry passes the index test only at position [index - 1] of a
    category preceded by [index - 1] entries. *)
Lemma entry_matches_index pattern index ctype i change :
  ctype ∈ change_type_keys →
  entry_matches changes pattern (Some index) ctype i change = true →
  Z.of_nat i = index - 1
  ∧ Z.of_nat (offset_in changes ctype change_type_keys) = index - 1.
Proof.
  intros Hkey. unfold entry_matches.
  rewrite global_idx_loop_offset by done.
  case_decide as Hg; [done|].
  destruct (decide (Z.of_nat i = index - 1)); [|done].
  intros _. split; [done|]. lia.
Qed.

(** Two different categories do not overlap in the global order. *)
Lemma offset_in_apart k1 k2 cts :
  k1 ∈ cts → k2 ∈ cts → k1 ≠ k2 →
  (offset_in changes k1 cts + length (default [] (changes !! k1))
   ≤ offset_in changes k2 cts
   ∨ offset_in changes k2 cts + length (default [] (changes !! k2))
     ≤ offset_in changes k1 cts)%nat.
Proof.
  intros H1 H2 Hne. induction cts as [|ct cts IH]; simpl.
  { by apply elem_of_nil in H1. }
  destruct (decide (ct = k1)) as [E1|Hn1], (decide (ct = k2)) as [E2|Hn2].
  - congruence.
  - subst ct. left. lia.
  - subst ct. right. lia.
  - apply elem_of_cons in H1 as [->|H1]; [done|].
    apply elem_of_cons in H2 as [->|H2]; [done|].
    destruct (IH H1 H2); [left|right]; lia.
Qed.

End IndexSearch.

(** X2: With an index, whatever the other filters, at most one entry is a
    candidate, and none when the index is below 1 or above the number of
    pending entries. *)
Theorem index_selects_at_most_one `{PythonText}
    (changes : Changes) (change_type pattern : option str) (index : Z) :
  (length (find_changes_to_remove changes change_type pattern (Some index))
   ≤ 1)%nat
  ∧ (index < 1 ∨ Z.of_nat (entries_total changes) < index →
     find_changes_to_remove changes change_type pattern (Some index) = []).
Proof.
  pose proof (find_changes_to_remove_sorted changes change_type pattern
                (Some index)) as Hsorted.
  assert (∀ c,
            c ∈ find_changes_to_remove changes change_type pattern (Some index) →
            c_type c ∈ change_type_keys
            ∧ (c_index c < length (default [] (changes !! c_type c)))%nat
            ∧ Z.of_nat (c_index c) = index - 1
            ∧ Z.of_nat (offset_in changes (c_type c) change_type_keys)
              = index - 1) as Hfacts.
  { intros c (Hkey & _ & (l & Hl & Hentry) & Hm)%find_changes_to_remove_mem.
    apply entry_matches_index in Hm as [Hi Hoff]; [|done].
    rewrite Hl. simpl. apply lookup_lt_Some in Hentry. done. }
  split.
  - destruct (find_changes_to_remove changes change_type pattern (Some index))
      as [|c1 [|c2 rest]]; simpl; [lia..|exfalso].
    destruct (Hfacts c1) as (Hk1 & Hl1 & Hi1 & Ho1); [apply list_elem_of_here|].
    destruct (Hfacts c2) as (Hk2 & Hl2 & Hi2 & Ho2);
      [apply list_elem_of_further, list_elem_of_here|].
    apply StronglySorted_inv in Hsorted as [_ Hfirst].
    apply Forall_cons in Hfirst as [Hbefore _].
    destruct (decide (c_type c1 = c_type c2)) as [Hty|Hty].
    + specialize (Hbefore Hty). lia.
    + destruct (offset_in_apart changes _ _ _ Hk1 Hk2 Hty); lia.
  - intros Hrange.
    destruct (find_changes_to_remove changes change_type pattern (Some index))
      as [|c rest]; [done|exfalso].
    destruct (Hfacts c) as (Hk & Hl & Hi & Ho); [apply list_elem_of_here|].
    destruct Hrange as [Hlow|Hhigh]; [lia|].
    destruct (changes !! c_type c) as [l|] eqn:Hlk; simpl in Hl; [|lia].
    pose proof (entries_total_lookup _ _ _ Hlk). lia.
Qed.

(** ** What the pending-store commands leave alone *)

Lemma same_artifacts_refl w : same_artifacts w w.
Proof. by repeat split. Qed.

Lemma same_artifacts_trans w1 w2 w3 :
  same_artifacts w1 w2 → same_artifacts w2 w3 → same_artifacts w1 w3.
Proof.
  intros (? & ? & ? & ? & ?) (? & ? & ? & ? & ?).
  repeat split; congruence.
Qed.

Lemma keeps_mret {A} (a : A) : keeps_artifacts (mret a).
Proof. intros w. apply same_artifacts_refl. Qed.

Lemma keeps_raise {A} e : keeps_artifacts (@raise A e).
Proof. intros w. apply same_artifacts_refl. Qed.

Lemma keeps_lift {A} (r : Result A) : keeps_artifacts (lift r).
Proof. intros w. apply same_artifacts_refl. Qed.

Lemma keeps_mbind {A B} (m : M A) (k : A → M B) :
  keeps_artifacts m → (∀ a, keeps_artifacts (k a)) →
  keeps_artifacts (m ≫= k).
Proof.
  intros Hm Hk w. unfold mbind, M_bind.
  specialize (Hm w). destruct (m w) as [[a|e] w1]; simpl in *; [|done].
  eapply same_artifacts_trans; [exact Hm|apply Hk].
Qed.

Lemma keeps_now : keeps_artifacts now.
Proof. intros w. by repeat split. Qed.

Lemma keeps_input : keeps_artifacts input.
Proof. intros w. unfold input. destruct (stdin w); by repeat split. Qed.

Lemma keeps_get_config : keeps_artifacts get_config.
Proof. intros w. apply same_artifacts_refl. Qed.

Lemma keeps_read_unreleased : keeps_artifacts read_unreleased.
Proof. intros w. apply same_artifacts_refl. Qed.

Lemma keeps_write_unreleased d : keeps_artifacts (write_unreleased d).
Proof.
  intros w. unfold write_unreleased.
  destruct (encodable_doc d); by repeat split.
Qed.

Create HintDb keeps discriminated.
#[local] Hint Resolve keeps_mret keeps_raise keeps_lift keeps_now keeps_input
  keeps_get_config keeps_read_unreleased keeps_write_unreleased : keeps.

Ltac keeps_step :=
  first
    [ apply keeps_mbind; [|intros ?]
    | progress auto with keeps
    | match goal with
      | |- keeps_artifacts (match ?x with _ => _ end) => destruct x
      | |- keeps_artifacts (if ?x then _ else _) => destruct x
      end ].

Lemma keeps__save_unreleased_json d : keeps_artifacts (_save_unreleased_json d).
Proof. unfold _save_unreleased_json. repeat keeps_step. Qed.

Lemma keeps__init_unreleased_json : keeps_artifacts _init_unreleased_json.
Proof.
  unfold _init_unreleased_json.
  repeat (keeps_step || apply keeps__save_unreleased_json).
Qed.

Lemma keeps__load_unreleased_json : keeps_artifacts _load_unreleased_json.
Proof.
  unfold _load_unreleased_json.
  repeat (keeps_step || apply keeps__init_unreleased_json).
Qed.

Lemma keeps__generate_id : keeps_artifacts _generate_id.
Proof. unfold _generate_id. repeat keeps_step. Qed.

Lemma keeps_add change_type description author :
  keeps_artifacts (add change_type description author).
Proof.
  unfold add.
  repeat (keeps_step || apply keeps__load_unreleased_json
          || apply keeps__generate_id || apply keeps__save_unreleased_json).
Qed.

Section KeepsRemove.
Context `{PythonText}.

Lemma keeps_choose_indices n : keeps_artifacts (choose_indices n).
Proof. unfold choose_indices. repeat keeps_step. Qed.

Lemma keeps_remove change_type pattern index :
  keeps_artifacts (remove change_type pattern index).
Proof.
  unfold remove.
  repeat (keeps_step || apply keeps__load_unreleased_json
          || apply keeps_choose_indices || apply keeps__save_unreleased_json).
Qed.

End KeepsRemove.

(** X5: [add] and [remove] work on the pending document only: whatever their
    arguments, the state of the files and the text typed at the prompts,
    and whether they return or raise (a save can fail on a text that
    cannot be encoded), the changelog document, the release records, the
    configuration and its file, and the git tags stay as they were. *)
Theorem pending_commands_keep_artifacts `{PythonText} w :
  (∀ change_type description author,
     same_artifacts w (add change_type description author w).2)
  ∧ (∀ change_type pattern index,
       same_artifacts w (remove change_type pattern index w).2).
Proof.
  split; intros.
  - apply keeps_add.
  - apply keeps_remove.
Qed.

(** ** Counting, entry by entry *)

Lemma count_changes_delete (c : Changes) (k : str) :
  count_changes (delete k c)
  = count_changes c - Z.of_nat (length (default [] (c !! k))).
Proof.
  unfold count_changes. destruct (c !! k) as [l|] eqn:Hk; simpl.
  - rewrite (map_fold_delete_L _ _ k l c); [lia| |exact Hk]. intros. lia.
  - rewrite delete_id by exact Hk. lia.
Qed.

Lemma count_changes_insert (c : Changes) (k : str) (l : list ChangeEntry) :
  count_changes (<[k:=l]> c)
  = count_changes c - Z.of_nat (length (default [] (c !! k)))
    + Z.of_nat (length l).
Proof.
  rewrite <- count_changes_delete. unfold count_changes.
  rewrite <- (insert_delete_eq c k l).
  rewrite map_fold_insert_L; [lia| |apply lookup_delete_eq]. intros. lia.
Qed.

(** ** Text that cannot be written *)

(** A document can be written only if every entry of it can. *)
Lemma encodable_changes_lookup (c : Changes) (k : str) (l : list ChangeEntry) :
  encodable_changes c = true → c !! k = Some l →
  forallb encodable_entry l = true.
Proof.
  unfold encodable_changes. rewrite forallb_forall. intros Hall Hk.
  apply elem_of_map_to_list, list_elem_of_In, Hall in Hk.
  by apply andb_prop in Hk as [_ ?].
Qed.

Lemma encodable_entry_description (e : ChangeEntry) :
  encodable_entry e = true → encodable (description e) = true.
Proof.
  unfold encodable_entry. intros He.
  repeat (apply andb_prop in He as [He ?]). done.
Qed.

(** What [_save_unreleased_json] returns and what it leaves in the file,
    by whether the document, with the time of saving, can be encoded. *)
Lemma _save_unreleased_json_result (data : PendingDoc) (w : World) :
  let d' := {| project := project data; created := created data;
               last_modified := isoformat (clock w (ticks w));
               changes := changes data; metadata := metadata data |} in
  (_save_unreleased_json data w).1
  = (if encodable_doc d' then Ok tt else Raised UnicodeEncodeError)
  ∧ unreleased_file (_save_unreleased_json data w).2
    = (if encodable_doc d' then Valid d' else Corrupt).
Proof.
  unfold _save_unreleased_json, now, write_unreleased, mbind, M_bind.
  cbv beta iota zeta.
  destruct (encodable_doc _); split; reflexivity.
Qed.

(** A command that ends with [return True] after its last step. *)
Lemma then_true_run {A} (m : M A) (w : World) :
  (m;; mret true) w
  = (match (m w).1 with Ok _ => Ok true | Raised e => Raised e end, (m w).2).
Proof.
  unfold mbind, M_bind, mret, M_ret. by destruct (m w) as [[a|e] w1].
Qed.

(** ** Adding an entry *)

(** A category that is not one of the six is refused before anything is
    read or written. *)
Lemma add_rejects_unknown w change_type description author :
  change_type ∉ change_type_keys →
  add change_type description author w = (Ok false, w).
Proof. intros Hno. unfold add. by rewrite decide_False. Qed.

(** [add] on a stored document, up to the save: three clock readings
    (the id, the timestamp, the time of saving), the entry at the end of
    the list of its category, the total recomputed. *)
Lemma add_run w d change_type description author :
  unreleased_file w = Valid d →
  change_type ∈ change_type_keys →
  add change_type description author w
  = (_save_unreleased_json
       {| project := project d; created := created d;
          last_modified := last_modified d;
          changes :=
            <[change_type :=
                default [] (changes d !! change_type)
                ++ [ {| id := u "chg_"
                              ++ drop_last3
                                   (strftime_compact (clock w (ticks w)));
                        description := description;
                        timestamp := isoformat (clock w (1 + ticks w));
                        author := author;
                        status := u "pending" |} ]]>
              (changes d);
          metadata :=
            {| total_changes :=
                 Z.of_nat (entries_total (changes d)) + 1 |} |};;
     mret true) (now (now w).2).2.
Proof.
  intros Hf Hkey. unfold add. rewrite decide_True by exact Hkey.
  unfold mbind at 1. unfold M_bind at 1.
  rewrite (_load_unreleased_json_valid w d Hf).
  unfold mbind at 1. unfold M_bind at 1. rewrite _generate_id_run.
  unfold mbind at 1. unfold M_bind at 1. unfold now at 1.
  cbv beta iota zeta.
  assert (∀ d1 d2 w1, d1 = d2 →
            (_save_unreleased_json d1;; mret true) w1
            = (_save_unreleased_json d2;; mret true) w1) as Hcongr
    by (by intros ? ? ? ->).
  apply Hcongr.
  destruct (changes d !! change_type) as [l|] eqn:Hl; simpl;
    do 2 f_equal; rewrite count_changes_insert, Hl,
      count_changes_entries_total; simpl; rewrite ?length_app; simpl; lia.
Qed.

(** What [add] returns on a stored document and what it leaves in the
    file, by whether the new document can be encoded. *)
Lemma add_outcome w d change_type description author :
  unreleased_file w = Valid d →
  change_type ∈ change_type_keys →
  let d' :=
    {| project := project d; created := created d;
       last_modified := isoformat (clock w (2 + ticks w));
       changes :=
         <[change_type :=
             default [] (changes d !! change_type)
             ++ [ {| id := u "chg_"
                           ++ drop_last3
                                (strftime_compact (clock w (ticks w)));
                     description := description;
                     timestamp := isoformat (clock w (1 + ticks w));
                     author := author;
                     status := u "pending" |} ]]>
           (changes d);
       metadata :=
         {| total_changes := Z.of_nat (entries_total (changes d)) + 1 |} |} in
  (add change_type description author w).1
  = (if encodable_doc d' then Ok true else Raised UnicodeEncodeError)
  ∧ unreleased_file (add change_type description author w).2
    = (if encodable_doc d' then Valid d' else Corrupt).
Proof.
  intros Hf Hkey d'.
  rewrite (add_run w d change_type description author Hf Hkey).
  rewrite then_true_run.
  match goal with
  | |- context [_save_unreleased_json ?D ?W] =>
      assert ((_save_unreleased_json D W).1
              = (if encodable_doc d' then Ok tt
                 else Raised UnicodeEncodeError)
              ∧ unreleased_file (_save_unreleased_json D W).2
                = (if encodable_doc d' then Valid d' else Corrupt))
        as [Hres Hfile] by exact (_save_unreleased_json_result D W)
  end.
  cbn [fst snd]. rewrite Hres, Hfile.
  by destruct (encodable_doc d').
Qed.

(** X6: An [add] that goes through (it returns [True]) has put the new entry
    at the end of the list of its category (a list of its own when the
    category has no key), kept every other entry and stored the number
    of entries as the total. *)
Theorem add_appends w d change_type description author w' :
  unreleased_file w = Valid d →
  add change_type description author w = (Ok true, w') →
  unreleased_file w'
  = Valid
      {| project := project d; created := created d;
         last_modified := isoformat (clock w (2 + ticks w));
         changes :=
           <[change_type :=
               default [] (changes d !! change_type)
               ++ [ {| id := u "chg_"
                             ++ drop_last3
                                  (strftime_compact (clock w (ticks w)));
                       description := description;
                       timestamp := isoformat (clock w (1 + ticks w));
                       author := author;
                       status := u "pending" |} ]]>
             (changes d);
         metadata :=
           {| total_changes := Z.of_nat (entries_total (changes d)) + 1 |} |}.
Proof.
  intros Hf Hrun.
  destruct (decide (change_type ∈ change_type_keys)) as [Hkey|Hkey].
  - destruct (add_outcome w d change_type description author Hf Hkey)
      as [Hres Hfile].
    rewrite Hrun in Hres, Hfile. cbn [fst snd] in Hres, Hfile.
    rewrite Hfile.
    match goal with
    | |- (if ?b then _ else _) = _ => by destruct b
    end.
  - by rewrite (add_rejects_unknown w change_type description author Hkey)
      in Hrun.
Qed.

Lemma add_appends_witness :
  ∃ d',
    unreleased_file
      (add (u "fixed") (u "Fix crash on startup") (Some (u "Ana"))
         (sample_world (sample_doc changes_AB_C) [])).2
    = Valid d'
    ∧ description <$> default [] (changes d' !! u "fixed")
      = [u "C"; u "Fix crash on startup"]
    ∧ total_changes (metadata d') = 4.
Proof.
  eexists. split.
  - apply (add_appends (sample_world (sample_doc changes_AB_C) [])
             (sample_doc changes_AB_C) (u "fixed")
             (u "Fix crash on startup") (Some (u "Ana"))).
    + reflexivity.
    + apply run_result. vm_compute. reflexivity.
  - split; vm_compute; reflexivity.
Defined.

(** X8: A description with a lone surrogate (what [sys.argv] holds for a byte
    of the command line that is not UTF-8) cannot be saved: [add] raises,
    and the file of pending changes is left without a document, so the
    entries that were pending are lost. *)
Theorem add_unencodable_description w d change_type description author :
  unreleased_file w = Valid d →
  change_type ∈ change_type_keys →
  encodable description = false →
  (add change_type description author w).1 = Raised UnicodeEncodeError
  ∧ unreleased_file (add change_type description author w).2 = Corrupt.
Proof.
  intros Hf Hkey Hdesc.
  destruct (add_outcome w d change_type description author Hf Hkey)
    as [Hres Hfile].
  rewrite Hres, Hfile.
  match goal with
  | |- (if ?b then _ else _) = _ ∧ _ => destruct b eqn:Henc
  end; [exfalso|done].
  unfold encodable_doc in Henc. cbn [changes] in Henc.
  apply andb_prop in Henc as [_ Henc].
  eapply encodable_changes_lookup in Henc; [|apply lookup_insert_eq].
  rewrite forallb_app in Henc. apply andb_prop in Henc as [_ Henc].
  simpl in Henc. rewrite andb_true_r in Henc.
  apply encodable_entry_description in Henc. simpl in Henc. congruence.
Qed.

(** U+DC80 is what the byte 0x80 of a command line becomes. *)
Lemma add_unencodable_description_witness :
  (add (u "fixed") [56448%N] None
     (sample_world (sample_doc changes_AB_C) [])).1
  = Raised UnicodeEncodeError
  ∧ unreleased_file
      (add (u "fixed") [56448%N] None
         (sample_world (sample_doc changes_AB_C) [])).2
    = Corrupt.
Proof.
  apply (add_unencodable_description
           (sample_world (sample_doc changes_AB_C) [])
           (sample_doc changes_AB_C)).
  - reflexivity.
  - apply (bool_decide_unpack _). vm_compute. exact I.
  - reflexivity.
Defined.

(** ** Text that can always be written *)

Lemma encodable_app (s t : str) :
  encodable (s ++ t) = encodable s && encodable t.
Proof. apply forallb_app. Qed.

(** The literals of the source are ASCII. *)
Lemma encodable_u (s : string) : encodable (u s) = true.
Proof.
  unfold u, encodable. apply forallb_forall. intros c Hc.
  apply list_elem_of_In, list_elem_of_fmap in Hc as (a & -> & _).
  pose proof (N_ascii_bounded a) as Ha.
  unfold scalar. apply orb_true_intro. left. apply N.ltb_lt. lia.
Qed.

Lemma encodable_uint_digits (d : Decimal.uint) :
  encodable (uint_digits d) = true.
Proof. induction d; simpl; done. Qed.

Lemma encodable_zpad (width : nat) (n : N) : encodable (zpad width n) = true.
Proof.
  unfold zpad, digits. rewrite encodable_app, encodable_uint_digits.
  rewrite andb_true_r. unfold encodable. apply forallb_forall.
  intros c Hc. apply list_elem_of_In, elem_of_replicate in Hc as [-> _].
  reflexivity.
Qed.

Lemma encodable_strftime_date (dt : DateTime) :
  encodable (strftime_date dt) = true.
Proof.
  unfold strftime_date.
  by rewrite !encodable_app, !encodable_zpad, !encodable_u.
Qed.

Lemma encodable_isoformat (dt : DateTime) : encodable (isoformat dt) = true.
Proof.
  unfold isoformat.
  rewrite !encodable_app, encodable_strftime_date, !encodable_zpad,
    !encodable_u.
  destruct (decide (microsecond dt = 0%N)); [done|].
  by rewrite encodable_app, encodable_zpad, encodable_u.
Qed.










(** ** When a release goes through *)






(** ** After a release *)

Lemma release_empty_run w d version release_notes tag_git :
  unreleased_file w = Valid d →
  total_changes (metadata d) = 0 →
  release version release_notes tag_git w = (Ok false, w).
Proof.
  intros Hf Hz. unfold release.
  unfold mbind at 1. unfold M_bind at 1.
  rewrite (_load_unreleased_json_valid w d Hf).
  by rewrite decide_True.
Qed.

(** X13: Right after a release that went through there is nothing left to
    release: a second call, for whatever version, returns [False] and
    changes nothing, the first release record included. *)
Theorem release_twice_is_refused
    w d version release_notes tag_git w' version' notes' tag' :
  unreleased_file w = Valid d →
  release version release_notes tag_git w = (Ok true, w') →
  release version' notes' tag' w' = (Ok false, w').
Proof.
  intros Hf Hrun.
  destruct (release_done w d version release_notes tag_git w' Hf Hrun)
    as (p & name & _ & _ & _ & _ & _ & Hunrel & _).
  by eapply release_empty_run.
Qed.

Lemma release_twice_is_refused_witness :
  release (u "1.2.1") [] false
    (release (u "1.2.0") (u "notes") false
       (sample_world (sample_doc changes_AB_C) [])).2
  = (Ok false,
     (release (u "1.2.0") (u "notes") false
        (sample_world (sample_doc changes_AB_C) [])).2).
Proof.
  apply (release_twice_is_refused
           (sample_world (sample_doc changes_AB_C) [])
           (sample_doc changes_AB_C) (u "1.2.0") (u "notes") false).
  - reflexivity.
  - apply run_result. vm_compute. reflexivity.
Defined.

(** X14: A release that went through has left the records under other file
    names, the configuration, its file and the pending terminal input
    as they were.  The tag is recorded when it was asked for and git
    accepted it, with the message "Release <version>" followed by
    ": <notes>" when there are notes; when git fails the release goes
    through all the same, without a tag. *)
Theorem release_frame w d version release_notes tag_git w' :
  unreleased_file w = Valid d →
  release version release_notes tag_git w = (Ok true, w') →
  (∀ file,
     file ≠ u "release_" ++ strip_leading_v version ++ u ".json" →
     releases_dir w' !! file = releases_dir w !! file)
  ∧ config w' = config w
  ∧ config_file w' = config_file w
  ∧ stdin w' = stdin w
  ∧ git_tags w'
    = if tag_git && git_ok w
      then git_tags w
           ++ [(version,
                u "Release " ++ version
                ++ match release_notes with
                   | [] => []
                   | _ => u ": " ++ release_notes
                   end)]
      else git_tags w.
Proof.
  intros Hf Hrun.
  destruct (release_done w d version release_notes tag_git w' Hf Hrun)
    as (p & name & _ & _ & _ & Hrel & _ & _ & Hcfg & Hcfgf & Hin & Htags).
  split; [|done].
  intros file Hfile. rewrite Hrel, version_clean_spec.
  by rewrite lookup_insert_ne.
Qed.

Lemma release_frame_witness :
  git_tags
    (release (u "v2.0.0") (u "notes") true
       {| clock := sample_clock; ticks := 0; stdin := [];
          config := default_config (u "demo"); config_file := Missing;
          changelog_file := None;
          unreleased_file := Valid (sample_doc changes_AB_C);
          releases_dir := ∅; git_ok := true; git_tags := [] |}).2
  = [(u "v2.0.0", u "Release v2.0.0: notes")].
Proof.
  destruct (release_frame
              {| clock := sample_clock; ticks := 0; stdin := [];
                 config := default_config (u "demo"); config_file := Missing;
                 changelog_file := None;
                 unreleased_file := Valid (sample_doc changes_AB_C);
                 releases_dir := ∅; git_ok := true; git_tags := [] |}
              (sample_doc changes_AB_C) (u "v2.0.0") (u "notes") true
              (release (u "v2.0.0") (u "notes") true
                 {| clock := sample_clock; ticks := 0; stdin := [];
                    config := default_config (u "demo");
                    config_file := Missing;
                    changelog_file := None;
                    unreleased_file := Valid (sample_doc changes_AB_C);
                    releases_dir := ∅; git_ok := true; git_tags := [] |}).2)
    as (_ & _ & _ & _ & Htags).
  - reflexivity.
  - apply run_result. vm_compute. reflexivity.
  - rewrite Htags. reflexivity.
Defined.

(** X15: When there is no changelog document, a release that goes through
    creates one: the title, an empty line, the marker, and the release
    block below it. *)
Theorem release_creates_changelog
    w d version release_notes tag_git w' :
  unreleased_file w = Valid d →
  changelog_file w = None →
  release version release_notes tag_git w = (Ok true, w') →
  changelog_file w'
  = Some (u "# Changelog" ++ nl ++ nl ++ u "## [Unreleased]" ++ nl
          ++ render_release_block version release_notes (changes d)
               (strftime_date (clock w (2 + ticks w)))).
Proof.
  intros Hf Hlog Hrun.
  destruct (release_done w d version release_notes tag_git w' Hf Hrun)
    as (p & name & _ & _ & _ & _ & -> & _).
  rewrite Hlog. reflexivity.
Qed.

Lemma release_creates_changelog_witness :
  changelog_file
    (release (u "1.0.0") [] false
       {| clock := sample_clock; ticks := 0; stdin := [];
          config := default_config (u "demo"); config_file := Missing;
          changelog_file := None;
          unreleased_file := Valid (sample_doc changes_AB_C);
          releases_dir := ∅; git_ok := true; git_tags := [] |}).2
  = Some (u "# Changelog" ++ nl ++ nl ++ u "## [Unreleased]" ++ nl
          ++ nl ++ u "## [1.0.0] - 2024-01-15" ++ nl
          ++ nl ++ u "### Added" ++ nl ++ u "- A" ++ nl ++ u "- B" ++ nl
          ++ nl ++ u "### Fixed" ++ nl ++ u "- C" ++ nl).
Proof.
  rewrite (release_creates_changelog
             {| clock := sample_clock; ticks := 0; stdin := [];
                config := default_config (u "demo"); config_file := Missing;
                changelog_file := None;
                unreleased_file := Valid (sample_doc changes_AB_C);
                releases_dir := ∅; git_ok := true; git_tags := [] |}
             (sample_doc changes_AB_C) (u "1.0.0") [] false
             (release (u "1.0.0") [] false
                {| clock := sample_clock; ticks := 0; stdin := [];
                   config := default_config (u "demo");
                   config_file := Missing;
                   changelog_file := None;
                   unreleased_file := Valid (sample_doc changes_AB_C);
                   releases_dir := ∅; git_ok := true; git_tags := [] |}).2).
  - vm_compute. reflexivity.
  - reflexivity.
  - reflexivity.
  - apply run_result. vm_compute. reflexivity.
Defined.

(** ** Releases that fail *)

(** A run that raises is its exception paired with the world it
    reaches. *)
Lemma run_raised {A} (m : M A) (w : World) (e : Exn) :
  (m w).1 = Raised e → m w = (Raised e, (m w).2).
Proof. destruct (m w) as [r w']. simpl. by intros ->. Qed.

Lemma strip_leading_v_keeps (version : str) (c : N) :
  c ∈ version → c ≠ 118%N → c ∈ strip_leading_v version.
Proof.
  destruct version as [|c0 rest]; [done|].
  rewrite strip_leading_v_cons. intros Hc Hne.
  destruct (N.eqb_spec 118 c0) as [<-|_]; [|done].
  by apply elem_of_cons in Hc as [->|Hc].
Qed.

(** X11: A version with a "/" or a NUL cannot name the release file: [open]
    raises, and the release ends there, after two clock readings, with
    no release record written and the changelog document, the pending
    document and the tags as they were. *)
Theorem release_bad_file_name w d version release_notes tag_git :
  unreleased_file w = Valid d →
  total_changes (metadata d) ≠ 0 →
  47%N ∈ version ∨ 0%N ∈ version →
  ∃ e w',
    release version release_notes tag_git w = (Raised e, w')
    ∧ (e = UnicodeEncodeError ∨ e = ValueError ∨ e = OSError)
    ∧ releases_dir w' = releases_dir w
    ∧ changelog_file w' = changelog_file w
    ∧ unreleased_file w' = Valid d
    ∧ git_tags w' = git_tags w.
Proof.
  intros Hf Hn Hbad. unfold release.
  unfold mbind at 1. unfold M_bind at 1.
  rewrite (_load_unreleased_json_valid w d Hf).
  destruct (decide (total_changes (metadata d) = 0)) as [Hz|_]; [done|].
  rewrite version_clean_spec.
  unfold write_release, now, mbind, M_bind.
  world_cbn.
  destruct (negb (fs_encodable _)); [eexists _, _; by eauto 10|].
  destruct (bool_decide (0%N ∈ _)) eqn:H0; [eexists _, _; by eauto 10|].
  destruct (bool_decide (47%N ∈ _)) eqn:H47; [eexists _, _; by eauto 10|].
  exfalso.
  apply bool_decide_eq_false in H0, H47.
  destruct Hbad as [Hc|Hc]; [apply H47|apply H0];
    rewrite !elem_of_app; right; left; by apply strip_leading_v_keeps.
Qed.

Lemma release_bad_file_name_witness :
  ∃ e w',
    release (u "1.0/rc1") [] false
      (sample_world (sample_doc changes_AB_C) [])
    = (Raised e, w')
    ∧ releases_dir w' = ∅
    ∧ unreleased_file w' = Valid (sample_doc changes_AB_C).
Proof.
  destruct (release_bad_file_name
              (sample_world (sample_doc changes_AB_C) [])
              (sample_doc changes_AB_C) (u "1.0/rc1") [] false)
    as (e & w' & Hrun & _ & Hrel & _ & Hf & _).
  - reflexivity.
  - vm_compute. discriminate.
  - left. apply (bool_decide_unpack _). vm_compute. exact I.
  - exists e, w'. split; [exact Hrun|]. split; [exact Hrel|exact Hf].
Defined.

(** X12: A release is not undone when its last step fails: when the reset of
    the pending document raises [KeyError] (no project name in the
    configuration), the release record and the changelog section are
    already written; the pending entries stay in place, and no tag is
    made. *)
Theorem release_without_project_name
    w d version release_notes tag_git k w' :
  unreleased_file w = Valid d →
  release version release_notes tag_git w = (Raised (KeyError k), w') →
  ∃ r,
    releases_dir w'
    !! (u "release_" ++ strip_leading_v version ++ u ".json")
    = Some (Valid r)
    ∧ rel_changes r = changes d
    ∧ changelog_file w'
      = Some (insert_release_block
                (match changelog_file w with
                 | Some text => universal_newlines text
                 | None =>
                     u "# Changelog" ++ nl ++ nl ++ u "## [Unreleased]" ++ nl
                 end)
                (render_release_block version release_notes (changes d)
                   (strftime_date (clock w (2 + ticks w)))))
    ∧ unreleased_file w' = Valid d
    ∧ git_tags w' = git_tags w.
Proof.
  intros Hf. unfold release.
  unfold mbind at 1. unfold M_bind at 1.
  rewrite (_load_unreleased_json_valid w d Hf).
  destruct (decide (total_changes (metadata d) = 0)) as [Hz|Hn]; [done|].
  rewrite version_clean_spec.
  destruct w as [ck tk inp cfg cfgf clf unf rels gok gtags].
  simpl in Hf. subst unf.
  unfold _update_changelog_md, _init_unreleased_json, _save_unreleased_json,
    _create_git_tag, run_git_tag, write_release, write_changelog,
    write_unreleased, read_changelog, get_config, now, raise, mbind, M_bind,
    mret, M_ret.
  world_cbn.
  destruct (negb (fs_encodable _)); [done|].
  destruct (bool_decide (0%N ∈ _)); [done|].
  destruct (bool_decide (47%N ∈ _) || _); [done|].
  destruct (encodable_release _); [|done].
  world_cbn.
  destruct (encodable (insert_release_block _ _)); [|done].
  world_cbn.
  destruct (cfg !! u "project") as [p|] eqn:Hp.
  - destruct (p !! u "name") as [name|] eqn:Hname.
    + world_cbn.
      destruct (encodable_doc _); [|done].
      world_cbn.
      destruct tag_git; world_cbn; [|done].
      destruct (negb (fs_encodable version)); [done|].
      destruct (bool_decide (0%N ∈ version)); [done|].
      destruct (negb (fs_encodable _)); [done|].
      destruct (bool_decide (0%N ∈ _)); [done|].
      by destruct gok.
    + intros [= <- <-]. eexists. cbn [releases_dir changelog_file
        unreleased_file git_tags].
      split; [apply lookup_insert_eq|]. done.
  - intros [= <- <-]. eexists. cbn [releases_dir changelog_file
      unreleased_file git_tags].
    split; [apply lookup_insert_eq|]. done.
Qed.

Lemma release_without_project_name_witness :
  ∃ r,
    releases_dir
      (release (u "1.0.0") [] false
         {| clock := sample_clock; ticks := 0; stdin := [];
            config := ∅; config_file := Missing; changelog_file := None;
            unreleased_file := Valid (sample_doc changes_AB_C);
            releases_dir := ∅; git_ok := true; git_tags := [] |}).2
    !! u "release_1.0.0.json"
    = Some (Valid r)
    ∧ unreleased_file
        (release (u "1.0.0") [] false
           {| clock := sample_clock; ticks := 0; stdin := [];
              config := ∅; config_file := Missing; changelog_file := None;
              unreleased_file := Valid (sample_doc changes_AB_C);
              releases_dir := ∅; git_ok := true; git_tags := [] |}).2
      = Valid (sample_doc changes_AB_C).
Proof.
  destruct (release_without_project_name
              {| clock := sample_clock; ticks := 0; stdin := [];
                 config := ∅; config_file := Missing; changelog_file := None;
                 unreleased_file := Valid (sample_doc changes_AB_C);
                 releases_dir := ∅; git_ok := true; git_tags := [] |}
              (sample_doc changes_AB_C) (u "1.0.0") [] false (u "project")
              (release (u "1.0.0") [] false
                 {| clock := sample_clock; ticks := 0; stdin := [];
                    config := ∅; config_file := Missing;
                    changelog_file := None;
                    unreleased_file := Valid (sample_doc changes_AB_C);
                    releases_dir := ∅; git_ok := true; git_tags := [] |}).2)
    as (r & Hrel & _ & _ & Hf & _).
  - reflexivity.
  - apply run_raised. vm_compute. reflexivity.
  - exists r. split; [exact Hrel|exact Hf].
Defined.

(** ** Reading the pending document *)

(** X9: A missing or undecodable file of pending changes is replaced by the
    empty initial document, named after the project, and that is what a
    read that returns hands out: entries that were in an undecodable
    file are gone. *)
Theorem _load_unreleased_json_self_healing w data w' :
  unreleased_file w = Missing ∨ unreleased_file w = Corrupt →
  _load_unreleased_json w = (Ok data, w') →
  ∃ p name,
    config w !! u "project" = Some p
    ∧ p !! u "name" = Some name
    ∧ data = {| project := name;
                created := isoformat (clock w (ticks w));
                last_modified := isoformat (clock w (2 + ticks w));
                changes := empty_changes;
                metadata := {| total_changes := 0 |} |}
    ∧ unreleased_file w' = Valid data.
Proof.
  intros Hf.
  destruct w as [ck tk inp cfg cfgf clf unf rels gok gtags].
  simpl in Hf.
  unfold _load_unreleased_json, _init_unreleased_json, _save_unreleased_json,
    read_unreleased, write_unreleased, get_config, now, raise, mbind, M_bind,
    mret, M_ret.
  destruct Hf as [-> | ->]; world_cbn;
    (destruct (cfg !! u "project") as [p|] eqn:Hp; [|done]);
    (destruct (p !! u "name") as [name|] eqn:Hname; [|done]);
    world_cbn;
    (destruct (encodable_doc _); world_cbn; [|done]);
    intros [= <- <-]; by exists p, name.
Qed.

Lemma _load_unreleased_json_self_healing_witness :
  ∃ d,
    unreleased_file
      (_load_unreleased_json
         {| clock := sample_clock; ticks := 0; stdin := [];
            config := default_config (u "demo"); config_file := Missing;
            changelog_file := None; unreleased_file := Corrupt;
            releases_dir := ∅; git_ok := false; git_tags := [] |}).2
    = Valid d
    ∧ changes d = empty_changes.
Proof.
  destruct (_load_unreleased_json_self_healing
              {| clock := sample_clock; ticks := 0; stdin := [];
                 config := default_config (u "demo"); config_file := Missing;
                 changelog_file := None; unreleased_file := Corrupt;
                 releases_dir := ∅; git_ok := false; git_tags := [] |}
              (match
                 (_load_unreleased_json
                    {| clock := sample_clock; ticks := 0; stdin := [];
                       config := default_config (u "demo");
                       config_file := Missing;
                       changelog_file := None; unreleased_file := Corrupt;
                       releases_dir := ∅; git_ok := false;
                       git_tags := [] |}).1
               with
               | Ok d => d
               | Raised _ => sample_doc ∅
               end)
              (_load_unreleased_json
                 {| clock := sample_clock; ticks := 0; stdin := [];
                    config := default_config (u "demo");
                    config_file := Missing;
                    changelog_file := None; unreleased_file := Corrupt;
                    releases_dir := ∅; git_ok := false; git_tags := [] |}).2)
    as (p & name & _ & _ & Hdata & Hfile).
  - by right.
  - apply run_result.
    assert (∀ r : Result PendingDoc,
              (match r with Ok _ => true | Raised _ => false end) = true →
              r = Ok (match r with Ok d => d | Raised _ => sample_doc ∅ end))
      as Hok by (by intros [?|?]).
    apply Hok. vm_compute. reflexivity.
  - rewrite Hdata in Hfile. eexists. split; [exact Hfile|reflexivity].
Defined.

(** ** Configuration that cannot be written *)

(** X16: When the updated configuration holds a text that cannot be encoded
    (a lone surrogate in the subkey or in the value), [config_update] on
    the "project" section returns [False]; by then the value is in the
    configuration held in memory, and the configuration file is left
    without a document. *)
Theorem config_update_project_unencodable `{PythonText}
    w p key subkey value :
  key = u "project." ++ subkey ∨ ((46%N ∉ key) ∧ subkey = key) →
  config w !! u "project" = Some p →
  encodable_config (<[u "project" := <[subkey := VStr value]> p]> (config w))
  = false →
  ∃ w',
    config_update key value w = (Ok false, w')
    ∧ config w' = <[u "project" := <[subkey := VStr value]> p]> (config w)
    ∧ config_file w' = Corrupt
    ∧ unreleased_file w' = unreleased_file w
    ∧ changelog_file w' = changelog_file w
    ∧ releases_dir w' = releases_dir w.
Proof.
  intros Hkey Hp Henc.
  unfold config_update. rewrite (split_project_key key subkey Hkey).
  unfold try_except, get_config, set_config, ChangelogConfig.save_config,
    write_config_file, mbind, M_bind, mret, M_ret.
  simpl. rewrite Hp.
  destruct (decide (u "project" = u "paths")) as [Heq|_]; [discriminate Heq|].
  destruct (decide (u "project" = u "settings")) as [Heq|_];
    [discriminate Heq|].
  simpl. rewrite Henc.
  eexists. split; [reflexivity|]. simpl. done.
Qed.

(** U+DC80 is what the byte 0x80 of a command line becomes. *)
Lemma config_update_project_unencodable_witness :
  ∃ w',
    @config_update ascii_text (u "project.homepage") [56448%N]
      (sample_world (sample_doc changes_AB) [])
    = (Ok false, w')
    ∧ config_file w' = Corrupt.
Proof.
  destruct (@config_update_project_unencodable ascii_text
              (sample_world (sample_doc changes_AB) [])
              {[ u "name" := VStr (u "demo"); u "version" := VStr (u "0.0.0");
                 u "author" := VStr []; u "license" := VStr (u "MIT") ]}
              (u "project.homepage") (u "homepage") [56448%N])
    as (w' & Hrun & _ & Hfile & _).
  - left. reflexivity.
  - apply lookup_insert_eq.
  - vm_compute. reflexivity.
  - exists w'. split; [exact Hrun|exact Hfile].
Defined.

(** ** When an entry can be added *)

Lemma encodable_take (n : nat) (s : str) :
  encodable s = true → encodable (take n s) = true.
Proof.
  unfold encodable. rewrite !forallb_forall. intros Hs c Hc.
  apply Hs, list_elem_of_In. apply list_elem_of_In in Hc.
  by eapply subseteq_take.
Qed.

Lemma encodable_strftime_compact (dt : DateTime) :
  encodable (strftime_compact dt) = true.
Proof. unfold strftime_compact. by rewrite !encodable_app, !encodable_zpad. Qed.

(** A document stays writable when a writable list is put under a
    writable key. *)
Lemma encodable_changes_insert (c : Changes) (k : str)
    (l : list ChangeEntry) :
  encodable_changes c = true → encodable k = true →
  forallb encodable_entry l = true →
  encodable_changes (<[k := l]> c) = true.
Proof.
  unfold encodable_changes. intros Hc Hk Hl.
  rewrite forallb_forall in Hc. apply forallb_forall. intros [k' l'] Hin.
  apply list_elem_of_In, elem_of_map_to_list, lookup_insert_Some in Hin
    as [[<- <-]|[_ Hin]].
  - simpl. by rewrite Hk, Hl.
  - by apply Hc, list_elem_of_In, elem_of_map_to_list.
Qed.

(** The names of the six categories are ASCII. *)
Lemma encodable_change_type (k : str) :
  k ∈ change_type_keys → encodable k = true.
Proof.
  assert (Forall (λ k, encodable k = true) change_type_keys) as Hall
    by (repeat constructor).
  rewrite Forall_forall in Hall. apply Hall.
Qed.

(** X7: [add] with a known category goes through when the stored document,
    the description and the author are text that can be encoded. *)
Theorem add_succeeds w d change_type desc by_whom :
  unreleased_file w = Valid d →
  encodable_doc d = true →
  change_type ∈ change_type_keys →
  encodable desc = true →
  (∀ a, by_whom = Some a → encodable a = true) →
  ∃ w' d',
    add change_type desc by_whom w = (Ok true, w')
    ∧ unreleased_file w' = Valid d'
    ∧ (∃ l e, changes d' !! change_type = Some (l ++ [e])
              ∧ description e = desc
              ∧ author e = by_whom)
    ∧ total_changes (metadata d')
      = Z.of_nat (entries_total (changes d)) + 1.
Proof.
  intros Hf Hd Hkey Hdesc Hauthor.
  destruct (add_outcome w d change_type desc by_whom Hf Hkey)
    as [Hres Hfile].
  match type of Hres with
  | _ = (if encodable_doc ?d' then _ else _) =>
      assert (encodable_doc d' = true) as Henc
  end.
  { unfold encodable_doc in *. cbn [project created last_modified changes].
    apply andb_prop in Hd as [Hd Hchanges].
    apply andb_prop in Hd as [Hd _].
    apply andb_prop in Hd as [Hproject Hcreated].
    rewrite Hproject, Hcreated, encodable_isoformat. cbn [andb].
    apply encodable_changes_insert;
      [done|by apply encodable_change_type|].
    rewrite forallb_app. apply andb_true_intro. split.
    - destruct (changes d !! change_type) as [l|] eqn:Hl; [|done].
      by eapply encodable_changes_lookup.
    - cbn [forallb]. rewrite andb_true_r. unfold encodable_entry.
      cbn [id description timestamp author status].
      rewrite encodable_app, encodable_u.
      unfold drop_last3. rewrite encodable_take
        by apply encodable_strftime_compact.
      rewrite Hdesc, encodable_isoformat, encodable_u. cbn [andb].
      rewrite andb_true_r.
      destruct by_whom as [a|]; [by apply Hauthor|done]. }
  rewrite Henc in Hres, Hfile.
  exists (add change_type desc by_whom w).2. eexists.
  split; [by apply run_result|].
  split; [exact Hfile|]. cbn [changes metadata total_changes].
  split; [|done].
  eexists _, _. split; [apply lookup_insert_eq|]. done.
Qed.

Lemma add_succeeds_witness :
  ∃ w' d',
    add (u "fixed") (u "Fix crash on startup") (Some (u "Ana"))
      (sample_world (sample_doc changes_AB_C) [])
    = (Ok true, w')
    ∧ unreleased_file w' = Valid d'
    ∧ total_changes (metadata d') = 4.
Proof.
  destruct (add_succeeds (sample_world (sample_doc changes_AB_C) [])
              (sample_doc changes_AB_C) (u "fixed")
              (u "Fix crash on startup") (Some (u "Ana")))
    as (w' & d' & Hrun & Hf & _ & Htotal).
  - reflexivity.
  - vm_compute. reflexivity.
  - apply (bool_decide_unpack _). vm_compute. exact I.
  - reflexivity.
  - intros a [= <-]. reflexivity.
  - exists w', d'. split; [exact Hrun|]. split; [exact Hf|].
    rewrite Htotal. vm_compute. reflexivity.
Defined.

(** ** Outcomes of a removal *)

(** Each turn of the deletion loop removes one entry. *)
Lemma delete_selected_count (cands : list Candidate) (idxs : list nat)
    (c c' : Changes) :
  delete_selected cands idxs c = Ok c' →
  count_changes c' = count_changes c - Z.of_nat (length idxs).
Proof.
  revert c. induction idxs as [|idx idxs IH]; intros c; simpl.
  { intros [= ->]. lia. }
  destruct (cands !! idx) as [item|]; [|done].
  destruct (c !! c_type item) as [l|] eqn:Hl; [|done].
  case_decide as Hin; [|done].
  intros Hrun. rewrite (IH _ Hrun).
  assert (length (delete (c_index item) l) = length l - 1)%nat as Hlen.
  { apply length_delete. by apply lookup_lt_is_Some_2. }
  destruct (delete (c_index item) l) as [|x l'] eqn:Hd.
  - rewrite count_changes_delete, lookup_insert_eq, count_changes_insert, Hl.
    simpl in *. lia.
  - rewrite count_changes_insert, Hl. simpl in *. lia.
Qed.

Section RemoveOutcomes.
Context `{PythonText}.

(** A confirmed choice is never empty. *)
Lemma choose_indices_nonempty n w sel w1 :
  n ≠ 0%nat →
  choose_indices n w = (Ok (Some sel), w1) → sel ≠ [].
Proof.
  intros Hn. unfold choose_indices, mbind, M_bind, mret, M_ret, lift, input.
  case_decide as Hn1.
  - destruct (stdin w); [done|]. case_decide; [|done]. by intros [= <- <-].
  - destruct (stdin w) as [|choice rest]; [done|]. simpl.
    case_decide.
    { intros [= <- <-]. destruct n as [|[|n]]; done. }
    case_decide; [|done].
    destruct rest as [|numbers rest]; [done|]. simpl.
    destruct (parse_selection n (split 44 (strip numbers))) as [[|i l]|];
      [done| |done].
    by intros [= <- <-].
Qed.

(** What lies behind a removal that returns [True]. *)
Lemma remove_done_inv w d change_type pattern index w' :
  unreleased_file w = Valid d →
  remove change_type pattern index w = (Ok true, w') →
  ∃ sel w1 c',
    choose_indices
      (length (find_changes_to_remove (changes d) change_type pattern index))
      w
    = (Ok (Some sel), w1)
    ∧ sel ≠ []
    ∧ delete_selected
        (find_changes_to_remove (changes d) change_type pattern index)
        (sorted_reverse sel) (changes d)
      = Ok c'
    ∧ unreleased_file w'
      = Valid {| project := project d; created := created d;
                 last_modified := isoformat (clock w1 (ticks w1));
                 changes := c';
                 metadata := {| total_changes := count_changes c' |} |}.
Proof.
  intros Hf. unfold remove.
  unfold mbind at 1. unfold M_bind at 1.
  rewrite (_load_unreleased_json_valid w d Hf).
  destruct (find_changes_to_remove (changes d) change_type pattern index)
    as [|c cands] eqn:Hcands; [done|].
  rewrite <- Hcands.
  assert (length (find_changes_to_remove (changes d) change_type pattern index)
          ≠ 0%nat) as Hn by (by rewrite Hcands).
  clear Hcands c cands.
  unfold mbind at 1. unfold M_bind at 1.
  destruct (choose_indices _ w) as [[[sel|]|e] w1] eqn:Hchoose; [|done..].
  unfold mbind at 1. unfold M_bind at 1. unfold lift.
  destruct (delete_selected _ (sorted_reverse sel) (changes d))
    as [c'|e] eqn:Hdel; [|done].
  unfold mbind, M_bind.
  destruct (_save_unreleased_json_run
              {| project := project d; created := created d;
                 last_modified := last_modified d;
                 changes := c';
                 metadata := {| total_changes := count_changes c' |} |} w1)
    as [(w2 & -> & Hw2)|(w2 & -> & Hw2)]; [|done].
  intros [= <-]. exists sel, w1, c'.
  split; [done|]. split; [by eapply choose_indices_nonempty|]. by split.
Qed.

End RemoveOutcomes.

(** X4: A removal that returns [True] lowers the number of pending entries
    by the number of numbers picked at the prompt, which is at least
    one, and stores the result as the total. *)
Theorem remove_done_lowers_total `{PythonText}
    w d change_type pattern index w' :
  unreleased_file w = Valid d →
  remove change_type pattern index w = (Ok true, w') →
  ∃ d' sel w1,
    choose_indices
      (length (find_changes_to_remove (changes d) change_type pattern index))
      w
    = (Ok (Some sel), w1)
    ∧ sel ≠ []
    ∧ unreleased_file w' = Valid d'
    ∧ total_changes (metadata d')
      = Z.of_nat (entries_total (changes d)) - Z.of_nat (length sel)
    ∧ Z.of_nat (entries_total (changes d'))
      = Z.of_nat (entries_total (changes d)) - Z.of_nat (length sel).
Proof.
  intros Hf Hrun.
  destruct (remove_done_inv w d change_type pattern index w' Hf Hrun)
    as (sel & w1 & c' & Hchoose & Hne & Hdel & Hnew).
  eexists _, sel, w1. split; [done|]. split; [done|]. split; [exact Hnew|].
  cbn [metadata total_changes changes].
  rewrite <- !count_changes_entries_total.
  rewrite (delete_selected_count _ _ _ _ Hdel).
  unfold sorted_reverse. by rewrite merge_sort_Permutation.
Qed.

Lemma remove_done_lowers_total_witness :
  ∃ d',
    unreleased_file
      (@remove ascii_text None None None
         (sample_world (sample_doc changes_AB_C) [u "1"])).2
    = Valid d'
    ∧ total_changes (metadata d') = 0.
Proof.
  destruct (@remove_done_lowers_total ascii_text
              (sample_world (sample_doc changes_AB_C) [u "1"])
              (sample_doc changes_AB_C) None None None
              (@remove ascii_text None None None
                 (sample_world (sample_doc changes_AB_C) [u "1"])).2)
    as (d' & sel & w1 & Hchoose & _ & Hf & Htotal & _).
  - reflexivity.
  - apply run_result. vm_compute. reflexivity.
  - exists d'. split; [exact Hf|].
    rewrite Htotal.
    assert (sel = [0; 1; 2]%nat) as ->.
    { assert ((@choose_indices ascii_text
                 (length (@find_changes_to_remove ascii_text
                            (changes (sample_doc changes_AB_C)) None None
                            None))
                 (sample_world (sample_doc changes_AB_C) [u "1"])).1
              = Ok (Some [0; 1; 2]%nat)) as Hfst
        by (vm_compute; reflexivity).
      rewrite Hchoose in Hfst. simpl in Hfst. congruence. }
    vm_compute. reflexivity.
Defined.
